(** * Return-value analysis of [src/utils/hasReturnValue.js]

    A shallow embedding of the three syntax-tree traversals of
    [hasReturnValue.js] ([hasReturnValue], [allBrancheshaveReturnValues],
    [hasNonEmptyResolverCall]) and of the entry point
    [hasValueOrExecutorHasNonEmptyResolveValue], followed by the properties
    established about them. *)

From Stdlib Require Import Bool List String.
Import ListNotations.
Open Scope string_scope.
Open Scope bool_scope.

(** ** Node model

    The functions take an [ESTreeOrTypeScriptNode]: a node of an ESTree or
    TypeScript-ESTree syntax tree.  [Node] has one constructor per node
    kind that a traversal names in a [case] label or reads through a
    field, and a few more that stand for the kinds of the [default] arms.
    The arguments of a constructor are the child nodes of the kind, under
    the names of their properties; scalar attributes that no traversal
    reads (operators, [kind], [raw], ...) are left out.  An optional child,
    which the parser sets to [null], is an [option].  The boolean
    [expression] of a function reads [false] where the parser leaves the
    property out: [node.expression] and ['expression' in node &&
    node.expression] are both falsy then, and a falsy left operand of [||]
    is dropped.

    The labels that the source marks [istanbul ignore next -- In Babel?]
    ([OptionalCallExpression], [OptionalMemberExpression], [ClassMethod],
    [ClassProperty], [ObjectProperty], [ObjectMethod], [Import]) are kinds
    of Babel's tree format, which the parameter type does not contain;
    [Node] has no constructor for them. *)

(** A TypeScript type node; only its [type] tag is ever read. *)
Record TypeNode : Type := { type : string }.

(** [returnType] of a function signature: [: T]. *)
Record TSTypeAnnotation : Type := { typeAnnotation : TypeNode }.

(** [typeParameters] of a [new] expression: [<T, ...>]. *)
Record TSTypeParameterInstantiation : Type := { params : list TypeNode }.

(** The [value] of a [Literal]. *)
Inductive LiteralValue : Type :=
  | LNull
  | LBoolean (b : bool)
  | LNumber (n : nat)
  | LString (s : string)
  | LRegExp (pattern : string).

Scheme All for list.
Scheme All for option.

Inductive Node : Type :=
  (* signature-only function forms of TypeScript *)
  | TSDeclareFunction (params : list Node) (returnType : option TSTypeAnnotation)
  | TSFunctionType (params : list Node) (returnType : option TSTypeAnnotation)
  | TSMethodSignature (key : Node) (params : list Node)
      (returnType : option TSTypeAnnotation)
  | TSEmptyBodyFunctionExpression (params : list Node)
      (returnType : option TSTypeAnnotation)
  (* functions and classes *)
  | MethodDefinition (decorators : option (list Node)) (computed : bool)
      (key value : Node)
  | FunctionExpression (expression : bool) (params : list Node) (body : Node)
  | FunctionDeclaration (expression : bool) (params : list Node) (body : Node)
  | ArrowFunctionExpression (expression : bool) (params : list Node) (body : Node)
  | ClassExpression (superClass : option Node) (body : Node)
  | ClassDeclaration (superClass : option Node) (body : Node)
  | ClassBody (body : list Node)
  | PropertyDefinition (computed : bool) (key : Node) (value : option Node)
  | Decorator (expression : Node)
  (* statements *)
  | BlockStatement (body : list Node)
  | ExpressionStatement (expression : Node)
  | LabeledStatement (label body : Node)
  | WhileStatement (test body : Node)
  | DoWhileStatement (body test : Node)
  | ForStatement (init test update : option Node) (body : Node)
  | ForInStatement (left right body : Node)
  | ForOfStatement (left right body : Node)
  | WithStatement (object body : Node)
  | IfStatement (test consequent : Node) (alternate : option Node)
  | TryStatement (block : Node) (handler : option catchClause)
      (finalizer : option Node)
  | SwitchStatement (discriminant : Node) (cases : list switchCase)
  | ReturnStatement (argument : option Node)
  | ThrowStatement (argument : Node)
  | BreakStatement (label : option Node)
  | ContinueStatement (label : option Node)
  | EmptyStatement
  | VariableDeclaration (declarations : list Node)
  | VariableDeclarator (id : Node) (init : option Node)
  (* expressions and patterns *)
  | Identifier (name : string)
  | Literal (value : LiteralValue)
  | ThisExpression
  | Super
  | NewExpression (callee : Node)
      (typeParameters : option TSTypeParameterInstantiation)
      (arguments : list Node)
  | CallExpression (callee : Node) (arguments : list Node)
  | ChainExpression (expression : Node)
  | MemberExpression (object property : Node)
  | ConditionalExpression (test consequent alternate : Node)
  | ArrayExpression (elements : list (option Node))
  | ArrayPattern (elements : list (option Node))
  | ObjectExpression (properties : list Node)
  | ObjectPattern (properties : list Node)
  | Property (computed : bool) (key value : Node)
  | RestElement (argument : Node)
  | AssignmentPattern (left right : Node)
  | AssignmentExpression (left right : Node)
  | BinaryExpression (left right : Node)
  | LogicalExpression (left right : Node)
  | UnaryExpression (argument : Node)
  | UpdateExpression (argument : Node)
  | AwaitExpression (argument : Node)
  | YieldExpression (argument : option Node)
  | SpreadElement (argument : Node)
  | SequenceExpression (expressions : list Node)
  | TemplateLiteral (expressions : list Node)
  | TaggedTemplateExpression (tag quasi : Node)
  | ImportExpression (source : Node)
with catchClause : Type :=
  | CatchClause (param : option Node) (body : Node)
with switchCase : Type :=
  | SwitchCase (test : option Node) (consequent : list Node).

(** [node.type]. *)
Definition node_type (node : Node) : string :=
  match node with
  | TSDeclareFunction _ _ => "TSDeclareFunction"
  | TSFunctionType _ _ => "TSFunctionType"
  | TSMethodSignature _ _ _ => "TSMethodSignature"
  | TSEmptyBodyFunctionExpression _ _ => "TSEmptyBodyFunctionExpression"
  | MethodDefinition _ _ _ _ => "MethodDefinition"
  | FunctionExpression _ _ _ => "FunctionExpression"
  | FunctionDeclaration _ _ _ => "FunctionDeclaration"
  | ArrowFunctionExpression _ _ _ => "ArrowFunctionExpression"
  | ClassExpression _ _ => "ClassExpression"
  | ClassDeclaration _ _ => "ClassDeclaration"
  | ClassBody _ => "ClassBody"
  | PropertyDefinition _ _ _ => "PropertyDefinition"
  | Decorator _ => "Decorator"
  | BlockStatement _ => "BlockStatement"
  | ExpressionStatement _ => "ExpressionStatement"
  | LabeledStatement _ _ => "LabeledStatement"
  | WhileStatement _ _ => "WhileStatement"
  | DoWhileStatement _ _ => "DoWhileStatement"
  | ForStatement _ _ _ _ => "ForStatement"
  | ForInStatement _ _ _ => "ForInStatement"
  | ForOfStatement _ _ _ => "ForOfStatement"
  | WithStatement _ _ => "WithStatement"
  | IfStatement _ _ _ => "IfStatement"
  | TryStatement _ _ _ => "TryStatement"
  | SwitchStatement _ _ => "SwitchStatement"
  | ReturnStatement _ => "ReturnStatement"
  | ThrowStatement _ => "ThrowStatement"
  | BreakStatement _ => "BreakStatement"
  | ContinueStatement _ => "ContinueStatement"
  | EmptyStatement => "EmptyStatement"
  | VariableDeclaration _ => "VariableDeclaration"
  | VariableDeclarator _ _ => "VariableDeclarator"
  | Identifier _ => "Identifier"
  | Literal _ => "Literal"
  | ThisExpression => "ThisExpression"
  | Super => "Super"
  | NewExpression _ _ _ => "NewExpression"
  | CallExpression _ _ => "CallExpression"
  | ChainExpression _ => "ChainExpression"
  | MemberExpression _ _ => "MemberExpression"
  | ConditionalExpression _ _ _ => "ConditionalExpression"
  | ArrayExpression _ => "ArrayExpression"
  | ArrayPattern _ => "ArrayPattern"
  | ObjectExpression _ => "ObjectExpression"
  | ObjectPattern _ => "ObjectPattern"
  | Property _ _ _ => "Property"
  | RestElement _ => "RestElement"
  | AssignmentPattern _ _ => "AssignmentPattern"
  | AssignmentExpression _ _ => "AssignmentExpression"
  | BinaryExpression _ _ => "BinaryExpression"
  | LogicalExpression _ _ => "LogicalExpression"
  | UnaryExpression _ => "UnaryExpression"
  | UpdateExpression _ => "UpdateExpression"
  | AwaitExpression _ => "AwaitExpression"
  | YieldExpression _ => "YieldExpression"
  | SpreadElement _ => "SpreadElement"
  | SequenceExpression _ => "SequenceExpression"
  | TemplateLiteral _ => "TemplateLiteral"
  | TaggedTemplateExpression _ _ => "TaggedTemplateExpression"
  | ImportExpression _ => "ImportExpression"
  end.

(** [node.name]: a string on an [Identifier], [undefined] elsewhere. *)
Definition node_name (node : Node) : option string :=
  match node with
  | Identifier name => Some name
  | _ => None
  end.

(** [a === b] on two values that are each a string or [undefined]. *)
Definition strict_eq (a b : option string) : bool :=
  match a, b with
  | Some x, Some y => x =? y
  | None, None => true
  | _, _ => false
  end.

(** ** Values and completions

    The traversals return [true] or [false], and in some places the falsy
    operand of a [&&] or [||] ([undefined], [null], an empty string).  They
    complete normally or by a [throw]. *)

Inductive value : Type :=
  | VUndefined
  | VNull
  | VBoolean (b : bool)
  | VString (s : string).

Inductive exception : Type :=
  | NullReturn   (* [new Error('Null return')] *)
  | TypeError.   (* a property read on [undefined], a call of a non-function *)

Inductive completion : Type :=
  | Return (v : value)
  | Throw (e : exception).

(** ECMAScript's [ToBoolean]. *)
Definition truthy (v : value) : bool :=
  match v with
  | VUndefined | VNull => false
  | VBoolean b => b
  | VString s => negb (s =? "")
  end.

Definition ret (b : bool) : completion := Return (VBoolean b).

(** [a || b] and [a && b]: the right operand is evaluated only when the
    left one does not decide, and the operand's value itself is the
    result. *)
Definition js_or (a b : completion) : completion :=
  match a with
  | Return v => if truthy v then Return v else b
  | Throw e => Throw e
  end.

Definition js_and (a b : completion) : completion :=
  match a with
  | Return v => if truthy v then b else Return v
  | Throw e => Throw e
  end.

Infix "|||" := js_or (at level 50, left associativity).
Infix "&&&" := js_and (at level 40, left associativity).

Section ArraySome.
Context {A : Type}.
Variable callback : A -> completion.

(** [array.some(callback)]: stops at the first truthy answer, and a
    [throw] of the callback leaves the loop. *)
Fixpoint some (array : list A) : completion :=
  match array with
  | [] => ret false
  | x :: rest =>
      match callback x with
      | Return v => if truthy v then ret true else some rest
      | Throw e => Throw e
      end
  end.

End ArraySome.

Section ArrayLast.
Context {A B : Type}.
Variable continuation : option A -> B.

(** [continuation(array.slice(-1)[0])]: the last element, [undefined]
    for an empty array. *)
Fixpoint with_last (array : list A) : B :=
  match array with
  | [] => continuation None
  | [x] => continuation (Some x)
  | _ :: rest => with_last rest
  end.

End ArrayLast.

(** ** Deferred-value classifier *)

Definition isNewPromiseExpression (node : option Node) : bool :=
  match node with
  | Some (NewExpression callee _ _) =>
      (node_type callee =? "Identifier") && strict_eq (node_name callee) (Some "Promise")
  | _ => false
  end.

(** [node?.typeParameters?.params?.[0]?.type === 'TSVoidKeyword']; of the
    kinds of [Node] only [NewExpression] carries [typeParameters]. *)
Definition isVoidPromise (node : option Node) : bool :=
  match node with
  | Some (NewExpression _ (Some typeParameters) _) =>
      match params typeParameters with
      | param0 :: _ => type param0 =? "TSVoidKeyword"
      | [] => false
      end
  | _ => false
  end.

Definition undefinedKeywords : list string :=
  ["TSVoidKeyword"; "TSUndefinedKeyword"; "TSNeverKeyword"].

(** [undefinedKeywords.has(type)]. *)
Definition has (set : list string) (key : string) : bool :=
  existsb (String.eqb key) set.

(** [node?.returnType?.typeAnnotation?.type] followed by
    [type && !undefinedKeywords.has(type)]. *)
Definition returnTypeHasValue (returnType : option TSTypeAnnotation) : completion :=
  match returnType with
  | None => Return VUndefined
  | Some annotation =>
      let type := type (typeAnnotation annotation) in
      Return (VString type) &&& ret (negb (has undefinedKeywords type))
  end.

(** A [PromiseFilter] callback. *)
Definition PromiseFilter : Type := Node -> bool.

(** ** Existence traversal: [hasReturnValue] *)

Fixpoint hasReturnValue_switch (node : Node) (throwOnNullReturn : bool)
    (promFilter : option PromiseFilter) {struct node} : completion :=
  (* the entry of the function: [if (!node) return false;] *)
  let hasReturnValue (node : option Node) : completion :=
    match node with
    | None => ret false
    | Some node => hasReturnValue_switch node throwOnNullReturn promFilter
    end in
  match node with
  | TSDeclareFunction _ returnType
  | TSFunctionType _ returnType
  | TSMethodSignature _ _ returnType =>
      returnTypeHasValue returnType
  | MethodDefinition _ _ _ value =>
      hasReturnValue (Some value)
  | FunctionExpression expression _ body
  | FunctionDeclaration expression _ body
  | ArrowFunctionExpression expression _ body =>
      ret (expression &&
           (negb (isNewPromiseExpression (Some body)) || negb (isVoidPromise (Some body))))
      ||| hasReturnValue (Some body)
  | BlockStatement body =>
      some (fun bodyNode =>
              ret (negb (node_type bodyNode =? "FunctionDeclaration"))
              &&& hasReturnValue (Some bodyNode)) body
  | LabeledStatement _ body
  | WhileStatement _ body
  | DoWhileStatement body _
  | ForStatement _ _ _ body
  | ForInStatement _ _ body
  | ForOfStatement _ _ body
  | WithStatement _ body =>
      hasReturnValue (Some body)
  | IfStatement _ consequent alternate =>
      hasReturnValue (Some consequent) ||| hasReturnValue alternate
  | TryStatement block handler finalizer =>
      hasReturnValue (Some block)
      ||| match handler with   (* [node.handler && node.handler.body] *)
          | Some (CatchClause _ body) => hasReturnValue (Some body)
          | None => hasReturnValue None
          end
      ||| hasReturnValue finalizer
  | SwitchStatement _ cases =>
      some (fun someCase =>
              match someCase with
              | SwitchCase _ consequent =>
                  some (fun nde => hasReturnValue (Some nde)) consequent
              end) cases
  | ReturnStatement argument =>
      match argument with
      | None => if throwOnNullReturn then Throw NullReturn else ret false
      | Some argument =>
          match promFilter with
          | Some promFilter =>
              if isNewPromiseExpression (Some argument)
              then ret (promFilter argument)
              else ret true
          | None => ret true
          end
      end
  | _ => ret false
  end.

(** The function itself: [None] is a [node] that is [null] or
    [undefined], and an omitted [promFilter]. *)
Definition hasReturnValue (node : option Node) (throwOnNullReturn : bool)
    (promFilter : option PromiseFilter) : completion :=
  match node with
  | None => ret false
  | Some node => hasReturnValue_switch node throwOnNullReturn promFilter
  end.

(** ** Exhaustiveness traversal: [allBrancheshaveReturnValues] *)

(** [node.test.value === true]: only a [Literal] has a [value] that can be
    the boolean [true]. *)
Definition test_value_is_true (test : Node) : bool :=
  match test with
  | Literal (LBoolean true) => true
  | _ => false
  end.

(** [node.body.body.some(callback)] for a boolean callback: the [body] of
    a [BlockStatement] or [ClassBody] is an array; any other [node.body]
    has no [body], or a node there, and the call throws a [TypeError]. *)
Definition body_body_some (callback : Node -> bool) (body : Node) : completion :=
  match body with
  | BlockStatement body | ClassBody body => ret (existsb callback body)
  | _ => Throw TypeError
  end.

(** The finalizer check of the [TryStatement] case: the function called on
    the spot that runs [hasReturnValue(node.finalizer, true, promFilter)]
    in a [try] and answers [false] when it catches 'Null return'. *)
Definition noNullReturn (hasReturn : completion) : completion :=
  match hasReturn with
  | Throw NullReturn => ret false
  | Throw error => Throw error
  | Return _ => ret true
  end.

Fixpoint allBrancheshaveReturnValues_switch (node : Node)
    (promFilter : option PromiseFilter) {struct node} : completion :=
  let allBrancheshaveReturnValues (node : option Node) : completion :=
    match node with
    | None => ret false
    | Some node => allBrancheshaveReturnValues_switch node promFilter
    end in
  match node with
  | TSDeclareFunction _ returnType
  | TSFunctionType _ returnType
  | TSMethodSignature _ _ returnType =>
      returnTypeHasValue returnType
  | FunctionExpression expression _ body
  | FunctionDeclaration expression _ body
  | ArrowFunctionExpression expression _ body =>
      ret (expression &&
           (negb (isNewPromiseExpression (Some body)) || negb (isVoidPromise (Some body))))
      ||| allBrancheshaveReturnValues (Some body)
      ||| body_body_some (fun nde => node_type nde =? "ReturnStatement") body
  | BlockStatement body =>
      (* [const lastBodyNode = node.body.slice(-1)[0]] *)
      with_last allBrancheshaveReturnValues body
  | WhileStatement test body
  | DoWhileStatement body test =>
      if test_value_is_true test
      then hasReturnValue (Some body) false promFilter
      else allBrancheshaveReturnValues (Some body)
  | LabeledStatement _ body
  | ForStatement _ _ _ body
  | ForInStatement _ _ body
  | ForOfStatement _ _ body
  | WithStatement _ body =>
      allBrancheshaveReturnValues (Some body)
  | IfStatement _ consequent alternate =>
      allBrancheshaveReturnValues (Some consequent)
      &&& allBrancheshaveReturnValues alternate
  | TryStatement block handler finalizer =>
      match finalizer with   (* [node.finalizer && ...] *)
      | Some finalizer => allBrancheshaveReturnValues (Some finalizer)
      | None => Return VNull
      end
      ||| (allBrancheshaveReturnValues (Some block)
           &&& match handler with   (* [!node.handler || ...] *)
               | None => ret true
               | Some (CatchClause _ body) =>
                   allBrancheshaveReturnValues (Some body)
               end
           &&& match finalizer with   (* [!node.finalizer || ...] *)
               | None => ret true
               | Some finalizer =>
                   noNullReturn (hasReturnValue (Some finalizer) true promFilter)
               end)
  | SwitchStatement _ cases =>
      ret (forallb
             (fun someCase =>
                match someCase with
                | SwitchCase _ consequent =>
                    negb (existsb
                            (fun consNode =>
                               (node_type consNode =? "BreakStatement")
                               || (node_type consNode =? "ReturnStatement")
                                  && match consNode with   (* [argument === null] *)
                                     | ReturnStatement None => true
                                     | _ => false
                                     end) consequent)
                end) cases)
  | ThrowStatement _ => ret true
  | ReturnStatement argument =>
      match argument with
      | None => ret false
      | Some argument =>
          match promFilter with
          | Some promFilter =>
              if isNewPromiseExpression (Some argument)
              then ret (promFilter argument)
              else ret true
          | None => ret true
          end
      end
  | _ => ret false
  end.

Definition allBrancheshaveReturnValues (node : option Node)
    (promFilter : option PromiseFilter) : completion :=
  match node with
  | None => ret false
  | Some node => allBrancheshaveReturnValues_switch node promFilter
  end.

(** ** Resolver-usage traversal: [hasNonEmptyResolverCall]

    [resolverName] is the [name] of the executor's first parameter: a
    string, or [undefined] when that parameter is a pattern. *)

Fixpoint hasNonEmptyResolverCall_switch (node : Node)
    (resolverName : option string) {struct node} : bool :=
  let hasNonEmptyResolverCall (node : option Node) : bool :=
    match node with
    | None => false
    | Some node => hasNonEmptyResolverCall_switch node resolverName
    end in
  match node with
  | CallExpression callee arguments =>
      strict_eq (node_name callee) resolverName
      && (
        (* Implicit or explicit undefined *)
        Nat.ltb 1 (List.length arguments)
        || match nth_error arguments 0 with   (* [arguments[0] !== undefined] *)
           | Some _ => true
           | None => false
           end)
      || existsb (fun nde =>
                    (* Being passed in to another function (which might invoke it) *)
                    (node_type nde =? "Identifier")
                    && strict_eq (node_name nde) resolverName
                    (* Handle nested items *)
                    || hasNonEmptyResolverCall (Some nde)) arguments
  | ChainExpression expression
  | Decorator expression
  | ExpressionStatement expression =>
      hasNonEmptyResolverCall (Some expression)
  | ClassBody body
  | BlockStatement body =>
      existsb (fun bodyNode => hasNonEmptyResolverCall (Some bodyNode)) body
  | FunctionExpression _ params body
  | FunctionDeclaration _ params body
  | ArrowFunctionExpression _ params body =>
      (* Shadowing: [node.params[0]?.name === resolverName] *)
      if strict_eq match params with
                   | param0 :: _ => node_name param0
                   | [] => None
                   end resolverName
      then false
      else hasNonEmptyResolverCall (Some body)
  | LabeledStatement _ body
  | WhileStatement _ body
  | DoWhileStatement body _
  | ForStatement _ _ _ body
  | ForInStatement _ _ body
  | ForOfStatement _ _ body
  | WithStatement _ body =>
      hasNonEmptyResolverCall (Some body)
  | ConditionalExpression test consequent alternate =>
      hasNonEmptyResolverCall (Some test)
      || hasNonEmptyResolverCall (Some consequent)
      || hasNonEmptyResolverCall (Some alternate)
  | IfStatement test consequent alternate =>
      hasNonEmptyResolverCall (Some test)
      || hasNonEmptyResolverCall (Some consequent)
      || hasNonEmptyResolverCall alternate
  | TryStatement block handler finalizer =>
      hasNonEmptyResolverCall (Some block)
      || match handler with   (* [node.handler && node.handler.body] *)
         | Some (CatchClause _ body) => hasNonEmptyResolverCall (Some body)
         | None => hasNonEmptyResolverCall None
         end
      || hasNonEmptyResolverCall finalizer
  | SwitchStatement _ cases =>
      existsb (fun someCase =>
                 match someCase with
                 | SwitchCase _ consequent =>
                     existsb (fun nde => hasNonEmptyResolverCall (Some nde)) consequent
                 end) cases
  | ArrayPattern elements
  | ArrayExpression elements =>
      existsb (fun element => hasNonEmptyResolverCall element) elements
  | AssignmentPattern _ right_ =>
      hasNonEmptyResolverCall (Some right_)
  | AssignmentExpression left_ right_
  | BinaryExpression left_ right_
  | LogicalExpression left_ right_ =>
      hasNonEmptyResolverCall (Some left_) || hasNonEmptyResolverCall (Some right_)
  (* Comma *)
  | SequenceExpression expressions
  | TemplateLiteral expressions =>
      existsb (fun subExpression => hasNonEmptyResolverCall (Some subExpression))
        expressions
  | ObjectPattern properties
  | ObjectExpression properties =>
      existsb (fun property => hasNonEmptyResolverCall (Some property)) properties
  | MethodDefinition decorators computed key value =>
      match decorators with   (* [node.decorators && node.decorators.some(...)] *)
      | Some decorators =>
          existsb (fun decorator => hasNonEmptyResolverCall (Some decorator)) decorators
      | None => false
      end
      || computed && hasNonEmptyResolverCall (Some key)
      || hasNonEmptyResolverCall (Some value)
  | PropertyDefinition computed key value =>
      computed && hasNonEmptyResolverCall (Some key)
      || hasNonEmptyResolverCall value
  | Property computed key value =>
      computed && hasNonEmptyResolverCall (Some key)
      || hasNonEmptyResolverCall (Some value)
  | ClassExpression _ body
  | ClassDeclaration _ body =>
      hasNonEmptyResolverCall (Some body)
  | AwaitExpression argument
  | SpreadElement argument
  | UnaryExpression argument =>
      hasNonEmptyResolverCall (Some argument)
  | YieldExpression argument =>
      hasNonEmptyResolverCall argument
  | VariableDeclaration declarations =>
      existsb (fun nde => hasNonEmptyResolverCall (Some nde)) declarations
  | VariableDeclarator id init =>
      hasNonEmptyResolverCall (Some id) || hasNonEmptyResolverCall init
  | TaggedTemplateExpression _ quasi =>
      hasNonEmptyResolverCall (Some quasi)
  | MemberExpression object property =>
      hasNonEmptyResolverCall (Some object) || hasNonEmptyResolverCall (Some property)
  | ImportExpression source =>
      hasNonEmptyResolverCall (Some source)
  | ReturnStatement argument =>
      match argument with
      | None => false
      | Some argument => hasNonEmptyResolverCall (Some argument)
      end
  | _ => false
  end.

Definition hasNonEmptyResolverCall (node : option Node)
    (resolverName : option string) : bool :=
  match node with
  | None => false
  | Some node => hasNonEmptyResolverCall_switch node resolverName
  end.

(** ** Composite entry point: [hasValueOrExecutorHasNonEmptyResolveValue] *)

(** [node.params] of the kinds that have it. *)
Definition node_params (node : Node) : option (list Node) :=
  match node with
  | FunctionExpression _ params _
  | FunctionDeclaration _ params _
  | ArrowFunctionExpression _ params _
  | TSDeclareFunction params _
  | TSFunctionType params _
  | TSMethodSignature _ params _
  | TSEmptyBodyFunctionExpression params _ => Some params
  | _ => None
  end.

(** [node.body] of a node that has [params]: a node on the three function
    kinds, absent on the signature-only ones. *)
Definition executor_body (node : Node) : option Node :=
  match node with
  | FunctionExpression _ _ body
  | FunctionDeclaration _ _ body
  | ArrowFunctionExpression _ _ body => Some body
  | _ => None
  end.

(** The filter that the entry point hands to the traversals.  Both apply it
    to [new Promise(...)] expressions only ([filter_consulted_on_promises]
    below); on a node without [arguments] the answer given here is never
    asked for. *)
Definition promiseFilter (anyPromiseAsReturn : bool) : PromiseFilter :=
  fun prom =>
    if anyPromiseAsReturn then true
    else if isVoidPromise (Some prom) then false
    else
      match prom with
      | NewExpression _ _ arguments
      | CallExpression _ arguments =>
          (* [const [{params, body} = {}] = prom.arguments] *)
          match arguments with
          | [] => false
          | executor :: _ =>
              match node_params executor with
              | None | Some [] => false   (* [!params?.length] *)
              | Some (param0 :: _) =>
                  (* [const [{name: resolverName}] = params] *)
                  let resolverName := node_name param0 in
                  hasNonEmptyResolverCall (executor_body executor) resolverName
              end
          end
      | _ => false
      end.

Definition hasValueOrExecutorHasNonEmptyResolveValue (node : option Node)
    (anyPromiseAsReturn allBranches : bool) : completion :=
  let hasReturnMethod :=
    if allBranches
    then fun nde promiseFilter =>
           match hasReturnValue nde true promiseFilter with
           | Throw NullReturn => ret false
           | Throw error => Throw error
           | Return hasReturn =>
               (* [hasReturn] check needed since [throw] treated as valid
                  return by [allBrancheshaveReturnValues] *)
               Return hasReturn &&& allBrancheshaveReturnValues nde promiseFilter
           end
    else fun nde promiseFilter => hasReturnValue nde false promiseFilter in
  hasReturnMethod node (Some (promiseFilter anyPromiseAsReturn)).

(** * Vocabulary of the properties *)

(** ** Shapes of completions

    [completes allowed c]: [c] is a normal completion whose value, when
    truthy, is the boolean [true], or a [throw] of an exception that
    [allowed] lets through. *)

Definition completes (allowed : exception -> Prop) (c : completion) : Prop :=
  match c with
  | Return v => truthy v = true -> v = VBoolean true
  | Throw e => allowed e
  end.

(** ** Trees on which exhaustiveness returns

    In a tree that a parser produces, a function that stands where a
    statement is expected is a declaration, and its body is a block.
    [blockBodiedFunctions node]: every function that the exhaustiveness
    traversal can arrive at from [node] has a block for body. *)

Fixpoint blockBodiedFunctions (node : Node) : bool :=
  match node with
  | FunctionExpression _ _ body
  | FunctionDeclaration _ _ body
  | ArrowFunctionExpression _ _ body =>
      match body with
      | BlockStatement _ => blockBodiedFunctions body
      | _ => false
      end
  | BlockStatement body => forallb blockBodiedFunctions body
  | LabeledStatement _ body
  | WhileStatement _ body
  | DoWhileStatement body _
  | ForStatement _ _ _ body
  | ForInStatement _ _ body
  | ForOfStatement _ _ body
  | WithStatement _ body => blockBodiedFunctions body
  | IfStatement _ consequent alternate =>
      blockBodiedFunctions consequent
      && match alternate with
         | Some alternate => blockBodiedFunctions alternate
         | None => true
         end
  | TryStatement block handler finalizer =>
      blockBodiedFunctions block
      && match handler with
         | Some (CatchClause _ body) => blockBodiedFunctions body
         | None => true
         end
      && match finalizer with
         | Some finalizer => blockBodiedFunctions finalizer
         | None => true
         end
  | _ => true
  end.

(** ** The decision *)

(** The existence check of the all-branches mode, in the words of the
    specification: existence in escalation mode, with the EmptyReturn
    signal converted to [false]. *)
Definition existenceEscalated (node : option Node)
    (filter : option PromiseFilter) : completion :=
  match hasReturnValue node true filter with
  | Throw NullReturn => Return (VBoolean false)
  | outcome => outcome
  end.

(** ** Exhaustiveness *)

(** Exhaustiveness of a node under a filter, and its failure by a falsy
    answer. *)
Definition exhaustive (promFilter : option PromiseFilter) (node : Node) : Prop :=
  allBrancheshaveReturnValues (Some node) promFilter = Return (VBoolean true).

Definition notExhaustive (promFilter : option PromiseFilter) (node : Node) : Prop :=
  exists v,
    allBrancheshaveReturnValues (Some node) promFilter = Return v
    /\ truthy v = false.

(** A statement of a [switch] branch that defeats exhaustiveness: a
    [break], or a [return] without argument. *)
Definition breakOrBareReturn (consNode : Node) : Prop :=
  (exists label, consNode = BreakStatement label)
  \/ consNode = ReturnStatement None.

(** ** Resolver usage *)

(** [node === null ? [] : [node]]. *)
Definition optional (node : option Node) : list Node :=
  match node with
  | Some node => [node]
  | None => []
  end.

(** The children that the resolver-usage traversal descends into, kind by
    kind: the coverage of the traversal. A function that re-binds the
    resolver name as its first parameter has none. *)
Definition visited (resolverName : option string) (node : Node) : list Node :=
  match node with
  | CallExpression _ arguments => arguments
  | ChainExpression expression
  | Decorator expression
  | ExpressionStatement expression => [expression]
  | ClassBody body
  | BlockStatement body => body
  | FunctionExpression _ params body
  | FunctionDeclaration _ params body
  | ArrowFunctionExpression _ params body =>
      if strict_eq match params with
                   | param0 :: _ => node_name param0
                   | [] => None
                   end resolverName
      then []
      else [body]
  | LabeledStatement _ body
  | WhileStatement _ body
  | DoWhileStatement body _
  | ForStatement _ _ _ body
  | ForInStatement _ _ body
  | ForOfStatement _ _ body
  | WithStatement _ body => [body]
  | ConditionalExpression test consequent alternate =>
      [test; consequent; alternate]
  | IfStatement test consequent alternate =>
      test :: consequent :: optional alternate
  | TryStatement block handler finalizer =>
      block
      :: match handler with
         | Some (CatchClause _ body) => [body]
         | None => []
         end
      ++ optional finalizer
  | SwitchStatement _ cases =>
      flat_map (fun someCase =>
                  match someCase with
                  | SwitchCase _ consequent => consequent
                  end) cases
  | ArrayPattern elements
  | ArrayExpression elements => flat_map optional elements
  | AssignmentPattern _ right_ => [right_]
  | AssignmentExpression left_ right_
  | BinaryExpression left_ right_
  | LogicalExpression left_ right_ => [left_; right_]
  | SequenceExpression expressions
  | TemplateLiteral expressions => expressions
  | ObjectPattern properties
  | ObjectExpression properties => properties
  | MethodDefinition decorators computed key value =>
      match decorators with
      | Some decorators => decorators
      | None => []
      end
      ++ (if computed then [key] else [])
      ++ [value]
  | PropertyDefinition computed key value =>
      (if computed then [key] else []) ++ optional value
  | Property computed key value =>
      (if computed then [key] else []) ++ [value]
  | ClassExpression _ body
  | ClassDeclaration _ body => [body]
  | AwaitExpression argument
  | SpreadElement argument
  | UnaryExpression argument => [argument]
  | YieldExpression argument => optional argument
  | VariableDeclaration declarations => declarations
  | VariableDeclarator id init => id :: optional init
  | TaggedTemplateExpression _ quasi => [quasi]
  | MemberExpression object property => [object; property]
  | ImportExpression source => [source]
  | ReturnStatement argument => optional argument
  | _ => []
  end.

(** [reachable resolverName root node]: the traversal started at [root]
    arrives at [node]. *)
Inductive reachable (resolverName : option string) : Node -> Node -> Prop :=
  | reachable_here (node : Node) : reachable resolverName node node
  | reachable_below (root child node : Node) :
      In child (visited resolverName root) ->
      reachable resolverName child node ->
      reachable resolverName root node.

(** (a) [node] is a call of the bare resolver identifier with at least one
    argument slot. *)
Definition callsResolver (resolver : string) (node : Node) : Prop :=
  exists argument0 arguments,
    node = CallExpression (Identifier resolver) (argument0 :: arguments).

(** (b) [node] is a call, of anything, with the bare resolver identifier
    among its arguments. *)
Definition passesResolver (resolver : string) (node : Node) : Prop :=
  exists callee arguments,
    node = CallExpression callee arguments
    /\ In (Identifier resolver) arguments.

(** The test that the traversal makes at a call: (a) or (b) above. *)
Definition resolverCall (resolverName : option string) (node : Node) : bool :=
  match node with
  | CallExpression callee arguments =>
      strict_eq (node_name callee) resolverName
      && (Nat.ltb 1 (List.length arguments)
          || match nth_error arguments 0 with
             | Some _ => true
             | None => false
             end)
      || existsb (fun nde =>
                    (node_type nde =? "Identifier")
                    && strict_eq (node_name nde) resolverName) arguments
  | _ => false
  end.

(** ** Escalation and filters *)

(** [escalation c c']: [c] is the 'Null return' throw, or is [c']. *)
Definition escalation (c c' : completion) : Prop :=
  c = Throw NullReturn \/ c = c'.

(** What an optional filter answers on a returned [new Promise(...)]:
    without filter the return counts. *)
Definition answer (promFilter : option PromiseFilter) (prom : Node) : bool :=
  match promFilter with
  | Some promFilter => promFilter prom
  | None => true
  end.

(** [permits c c']: both completions are [true], a falsy value or a
    throw; [c'] returns when [c] does, and is [true] when [c] is. *)
Definition permits (c c' : completion) : Prop :=
  completes (fun _ => True) c
  /\ completes (fun _ => True) c'
  /\ (forall v, c = Return v -> exists v', c' = Return v')
  /\ (c = Return (VBoolean true) -> c' = Return (VBoolean true)).

(** ** Sample trees *)

(** [new Promise<T, ...>(...arguments)]. *)
Definition newPromise (typeArguments : option (list TypeNode))
    (arguments : list Node) : Node :=
  NewExpression (Identifier "Promise")
    match typeArguments with
    | Some types => Some {| params := types |}
    | None => None
    end
    arguments.

(** [(resolve) => { resolve(5); }]. *)
Definition resolvingExecutor : Node :=
  ArrowFunctionExpression false [Identifier "resolve"]
    (BlockStatement
       [ExpressionStatement
          (CallExpression (Identifier "resolve") [Literal (LNumber 5)])]).

Definition one : Node := Literal (LNumber 1).
Definition two : Node := Literal (LNumber 2).
Definition returns (argument : Node) : Node := ReturnStatement (Some argument).

(** * Properties *)

(** Induction on a node with hypotheses for the nodes inside its lists
    and options. *)
Scheme Node_mutind := Induction for Node Sort Prop
  with catchClause_mutind := Induction for catchClause Sort Prop
  with switchCase_mutind := Induction for switchCase Sort Prop.

(** ** Shapes of completions *)

Lemma list_all_In {A : Type} (P : A -> Prop) (l : list A) :
  list_all A P l -> forall x, In x l -> P x.
Proof.
  induction 1 as [|a Ha l Hl IH]; intros x Hx.
  - destruct Hx.
  - destruct Hx as [<-|Hx]; [exact Ha | exact (IH x Hx)].
Qed.

Lemma list_all_option_In (P : Node -> Prop) (l : list (option Node)) :
  list_all (option Node) (option_all Node P) l ->
  forall x, In (Some x) l -> P x.
Proof.
  induction 1 as [|a Ha l Hl IH]; intros x Hx.
  - destruct Hx.
  - destruct Hx as [->|Hx]; [|exact (IH x Hx)].
    inversion Ha. assumption.
Qed.

Section Completes.
Variable allowed : exception -> Prop.

Lemma completes_ret (b : bool) : completes allowed (ret b).
Proof. destruct b; simpl; [reflexivity | discriminate]. Qed.

Lemma completes_undefined : completes allowed (Return VUndefined).
Proof. simpl; discriminate. Qed.

Lemma completes_null : completes allowed (Return VNull).
Proof. simpl; discriminate. Qed.

Lemma completes_js_or (a b : completion) :
  completes allowed a -> completes allowed b -> completes allowed (a ||| b).
Proof.
  destruct a as [v|e]; simpl; [|trivial].
  destruct (truthy v) eqn:Hv; simpl; [rewrite Hv|]; trivial.
Qed.

Lemma completes_js_and (a b : completion) :
  completes allowed a -> completes allowed b -> completes allowed (a &&& b).
Proof.
  destruct a as [v|e]; simpl; [|trivial].
  destruct (truthy v) eqn:Hv; simpl; [|rewrite Hv]; trivial.
Qed.

Lemma completes_some {A : Type} (callback : A -> completion) (array : list A) :
  (forall x, In x array -> completes allowed (callback x)) ->
  completes allowed (some callback array).
Proof.
  induction array as [|x rest IH]; intros H; simpl.
  - discriminate.
  - pose proof (H x (or_introl eq_refl)) as Hx.
    destruct (callback x) as [v|e]; [|exact Hx].
    destruct (truthy v); [apply completes_ret|].
    apply IH. intros y Hy. apply H. right. exact Hy.
Qed.

Lemma completes_with_last {A : Type} (continuation : option A -> completion)
    (array : list A) :
  completes allowed (continuation None) ->
  (forall x, In x array -> completes allowed (continuation (Some x))) ->
  completes allowed (with_last continuation array).
Proof.
  intros Hnone. induction array as [|x rest IH]; intros H; simpl; [exact Hnone|].
  destruct rest as [|y rest'].
  - apply H. left. reflexivity.
  - apply IH. intros z Hz. apply H. right. exact Hz.
Qed.

Lemma completes_returnTypeHasValue (returnType : option TSTypeAnnotation) :
  completes allowed (returnTypeHasValue returnType).
Proof.
  destruct returnType as [annotation|]; simpl; [|discriminate].
  destruct (type (typeAnnotation annotation) =? "") eqn:E; simpl.
  - rewrite E. discriminate.
  - apply completes_ret.
Qed.

End Completes.

Lemma completes_weaken (allowed allowed' : exception -> Prop) (c : completion) :
  (forall e, allowed e -> allowed' e) ->
  completes allowed c -> completes allowed' c.
Proof. intros H. destruct c; simpl; auto. Qed.

(** One step of a proof of [completes]: follows the operators of the
    source and closes the leaves with the induction hypotheses. *)
Ltac completes_step :=
  match goal with
  | |- completes _ (ret _) => apply completes_ret
  | |- completes _ (Return VNull) => apply completes_null
  | |- completes _ (returnTypeHasValue _) => apply completes_returnTypeHasValue
  | |- completes _ (_ ||| _) => apply completes_js_or
  | |- completes _ (_ &&& _) => apply completes_js_and
  | |- completes _ (some _ _) => apply completes_some; intros ? ?
  | |- completes _ (with_last _ _) => apply completes_with_last; [|intros ? ?]
  | H : list_all _ _ ?l, Hin : In ?x ?l |- _ =>
      generalize (list_all_In _ _ H x Hin); clear H; intro H
  | H : forall x, In x ?l -> _, Hin : In ?x ?l |- _ =>
      generalize (H x Hin); clear H; intro H
  | H : option_all _ _ ?o |- context [match ?o with _ => _ end] =>
      destruct H
  | |- context [match ?c with CatchClause _ _ => _ end] => destruct c
  | |- context [match ?c with SwitchCase _ _ => _ end] => destruct c
  | |- completes _ (if ?b then _ else _) => destruct b
  | |- completes _ (match ?o with Some _ => _ | None => _ end) => destruct o
  | _ => assumption
  end.

(** The existence traversal throws nothing but 'Null return', and that
    only when asked to. *)
Lemma hasReturnValue_switch_completes (throwOnNullReturn : bool)
    (promFilter : option PromiseFilter) (node : Node) :
  completes (fun e => e = NullReturn /\ throwOnNullReturn = true)
    (hasReturnValue_switch node throwOnNullReturn promFilter).
Proof.
  induction node using Node_mutind with
    (P0 := fun clause =>
             match clause with
             | CatchClause _ body =>
                 completes (fun e => e = NullReturn /\ throwOnNullReturn = true)
                   (hasReturnValue_switch body throwOnNullReturn promFilter)
             end)
    (P1 := fun someCase =>
             match someCase with
             | SwitchCase _ consequent =>
                 forall nde, In nde consequent ->
                   completes (fun e => e = NullReturn /\ throwOnNullReturn = true)
                     (hasReturnValue_switch nde throwOnNullReturn promFilter)
             end);
    cbn [hasReturnValue_switch]; repeat completes_step.
  - split; reflexivity.
  - apply list_all_In. assumption.
Qed.

Lemma hasReturnValue_completes (throwOnNullReturn : bool)
    (promFilter : option PromiseFilter) (node : option Node) :
  completes (fun e => e = NullReturn /\ throwOnNullReturn = true)
    (hasReturnValue node throwOnNullReturn promFilter).
Proof.
  destruct node as [node|]; simpl.
  - apply hasReturnValue_switch_completes.
  - discriminate.
Qed.

(** Without escalation the existence traversal always returns. *)
Lemma hasReturnValue_returns (promFilter : option PromiseFilter)
    (node : option Node) :
  exists v, hasReturnValue node false promFilter = Return v.
Proof.
  pose proof (hasReturnValue_completes false promFilter node) as H.
  destruct (hasReturnValue node false promFilter) as [v|e].
  - exists v. reflexivity.
  - destruct H as [_ H]. discriminate H.
Qed.

Lemma noNullReturn_completes (allowed : exception -> Prop)
    (promFilter : option PromiseFilter) (node : option Node) :
  completes allowed (noNullReturn (hasReturnValue node true promFilter)).
Proof.
  pose proof (hasReturnValue_completes true promFilter node) as H.
  destruct (hasReturnValue node true promFilter) as [v|e]; simpl.
  - reflexivity.
  - destruct H as [-> _]. simpl. discriminate.
Qed.

Lemma body_body_some_completes (callback : Node -> bool) (body : Node) :
  completes (fun e => e = TypeError) (body_body_some callback body).
Proof.
  destruct body; cbn [body_body_some];
    first [apply completes_ret | reflexivity].
Qed.

(** The exhaustiveness traversal never lets 'Null return' out; what it
    can throw is the [TypeError] of [node.body.body.some]. *)
Lemma allBrancheshaveReturnValues_switch_completes
    (promFilter : option PromiseFilter) (node : Node) :
  completes (fun e => e = TypeError)
    (allBrancheshaveReturnValues_switch node promFilter).
Proof.
  induction node using Node_mutind with
    (P0 := fun clause =>
             match clause with
             | CatchClause _ body =>
                 completes (fun e => e = TypeError)
                   (allBrancheshaveReturnValues_switch body promFilter)
             end)
    (P1 := fun _ => True);
    cbn [allBrancheshaveReturnValues_switch]; repeat completes_step;
    try apply noNullReturn_completes; try apply body_body_some_completes;
    try exact I.
  all: eapply completes_weaken; [|apply hasReturnValue_completes];
    intros e [_ H]; discriminate H.
Qed.

Lemma allBrancheshaveReturnValues_completes (promFilter : option PromiseFilter)
    (node : option Node) :
  completes (fun e => e = TypeError)
    (allBrancheshaveReturnValues node promFilter).
Proof.
  destruct node as [node|]; simpl.
  - apply allBrancheshaveReturnValues_switch_completes.
  - discriminate.
Qed.

(** C9. An absent node ([null] or [undefined]) makes each of the three
    traversals answer [false]: the existence traversal whatever the
    escalation flag and the filter, the exhaustiveness traversal whatever
    the filter, and the resolver-usage traversal whatever the resolver
    name. *)
Theorem absent_node_yields_false :
  (forall throwOnNullReturn promFilter,
      hasReturnValue None throwOnNullReturn promFilter = Return (VBoolean false))
  /\ (forall promFilter,
        allBrancheshaveReturnValues None promFilter = Return (VBoolean false))
  /\ (forall resolverName, hasNonEmptyResolverCall None resolverName = false).
Proof. repeat split. Qed.

Lemma hasReturnValue_false_completes (allowed : exception -> Prop)
    (promFilter : option PromiseFilter) (node : option Node) :
  completes allowed (hasReturnValue node false promFilter).
Proof.
  eapply completes_weaken; [|apply hasReturnValue_completes].
  intros e [_ H]. discriminate H.
Qed.

Lemma allBrancheshaveReturnValues_switch_returns
    (promFilter : option PromiseFilter) (node : Node) :
  blockBodiedFunctions node = true ->
  completes (fun _ => False) (allBrancheshaveReturnValues_switch node promFilter).
Proof.
  induction node using Node_mutind with
    (P0 := fun clause =>
             match clause with
             | CatchClause _ body =>
                 blockBodiedFunctions body = true ->
                 completes (fun _ => False)
                   (allBrancheshaveReturnValues_switch body promFilter)
             end)
    (P1 := fun _ => True);
    try exact I;
    cbn [blockBodiedFunctions]; intros Hwf;
    cbn [allBrancheshaveReturnValues_switch];
    try apply completes_ret; try apply completes_returnTypeHasValue.
  all: repeat match goal with
         | H : _ && _ = true |- _ =>
             apply andb_true_iff in H; destruct H
         | IH : ?a = true -> _, H : ?a = true |- _ => specialize (IH H)
         end.
  all: try assumption.
  1-3: match goal with
       | H : match ?body with _ => _ end = true, IH : _ -> _ |- _ =>
           destruct body; try discriminate H; specialize (IH H)
       end;
       repeat completes_step; apply completes_ret.
  - (* BlockStatement *)
    rewrite forallb_forall in Hwf.
    apply completes_with_last; [apply completes_ret|].
    intros nde Hnde.
    match goal with
    | H : list_all _ _ _ |- _ => apply (list_all_In _ _ H nde Hnde)
    end.
    apply Hwf. exact Hnde.
  - (* WhileStatement *)
    destruct (test_value_is_true _);
      [apply hasReturnValue_false_completes | assumption].
  - (* DoWhileStatement *)
    destruct (test_value_is_true _);
      [apply hasReturnValue_false_completes | assumption].
  - (* IfStatement *)
    apply completes_js_and; [assumption|].
    match goal with H : option_all _ _ _ |- _ => destruct H end;
      [auto | apply completes_ret].
  - (* TryStatement *)
    repeat match goal with
           | H : option_all _ _ _ |- _ => destruct H
           end;
      repeat match goal with
             | c : catchClause |- _ => destruct c
             end;
      repeat completes_step;
      auto using noNullReturn_completes.
  - (* ReturnStatement *)
    repeat completes_step.
Qed.

(** On such a tree exhaustiveness is decided: the answer is [true], or a
    falsy value. *)
Lemma exhaustiveness_decided (promFilter : option PromiseFilter) (node : Node) :
  blockBodiedFunctions node = true ->
  allBrancheshaveReturnValues (Some node) promFilter = Return (VBoolean true)
  \/ exists v,
       allBrancheshaveReturnValues (Some node) promFilter = Return v
       /\ truthy v = false.
Proof.
  intros Hwf.
  pose proof (allBrancheshaveReturnValues_switch_returns promFilter node Hwf) as H.
  cbn [allBrancheshaveReturnValues].
  destruct (allBrancheshaveReturnValues_switch node promFilter) as [v|e];
    [|destruct H].
  cbn [completes] in H. destruct (truthy v) eqn:Hv.
  - left. rewrite (H eq_refl). reflexivity.
  - right. exists v. auto.
Qed.

(** ** Where the filter is consulted

    Both traversals hand the filter nothing but [new Promise(...)]
    expressions: two filters that agree on those give the same answers. *)

Lemma some_ext {A : Type} (callback callback' : A -> completion) (array : list A) :
  (forall x, In x array -> callback x = callback' x) ->
  some callback array = some callback' array.
Proof.
  induction array as [|x rest IH]; intros H; cbn [some]; [reflexivity|].
  rewrite (H x (or_introl eq_refl)).
  rewrite IH by (intros y Hy; apply H; right; exact Hy).
  reflexivity.
Qed.

Lemma with_last_ext {A B : Type} (continuation continuation' : option A -> B)
    (array : list A) :
  continuation None = continuation' None ->
  (forall x, In x array -> continuation (Some x) = continuation' (Some x)) ->
  with_last continuation array = with_last continuation' array.
Proof.
  intros Hnone. induction array as [|x rest IH]; intros H; cbn [with_last].
  - exact Hnone.
  - destruct rest as [|y rest'].
    + apply H. left. reflexivity.
    + apply IH. intros z Hz. apply H. right. exact Hz.
Qed.

Lemma filter_consulted_on_promises (f g : PromiseFilter) :
  (forall prom, isNewPromiseExpression (Some prom) = true -> f prom = g prom) ->
  forall node,
    (forall throwOnNullReturn,
        hasReturnValue_switch node throwOnNullReturn (Some f)
        = hasReturnValue_switch node throwOnNullReturn (Some g))
    /\ allBrancheshaveReturnValues_switch node (Some f)
       = allBrancheshaveReturnValues_switch node (Some g).
Proof.
  intros Hagree node.
  induction node using Node_mutind with
    (P0 := fun clause =>
             match clause with
             | CatchClause _ body =>
                 (forall throwOnNullReturn,
                     hasReturnValue_switch body throwOnNullReturn (Some f)
                     = hasReturnValue_switch body throwOnNullReturn (Some g))
                 /\ allBrancheshaveReturnValues_switch body (Some f)
                    = allBrancheshaveReturnValues_switch body (Some g)
             end)
    (P1 := fun someCase =>
             match someCase with
             | SwitchCase _ consequent =>
                 forall nde throwOnNullReturn, In nde consequent ->
                   hasReturnValue_switch nde throwOnNullReturn (Some f)
                   = hasReturnValue_switch nde throwOnNullReturn (Some g)
             end).
  all: repeat match goal with
         | H : (forall t, _ = _) /\ _ |- _ => destruct H
         | H : option_all _ _ _ |- _ => destruct H
         | c : catchClause |- _ => destruct c
         end.
  all: try (split; [intros throwOnNullReturn|]);
    cbn [hasReturnValue_switch allBrancheshaveReturnValues_switch hasReturnValue];
    repeat match goal with
           | H : forall t, hasReturnValue_switch ?n t _ = _ |- _ =>
               rewrite ?H; clear H
           | H : allBrancheshaveReturnValues_switch ?n _ = _ |- _ =>
               rewrite ?H; clear H
           end;
    try reflexivity.
  - (* BlockStatement, existence *)
    apply some_ext. intros bodyNode Hin.
    destruct (list_all_In _ _ H bodyNode Hin) as [-> _]. reflexivity.
  - (* BlockStatement, exhaustiveness *)
    apply with_last_ext; [reflexivity|]. intros nde Hin.
    destruct (list_all_In _ _ H nde Hin) as [_ ->]. reflexivity.
  - (* SwitchStatement *)
    apply some_ext. intros [test consequent] Hin.
    apply some_ext. intros nde Hnde.
    apply (list_all_In _ _ H (SwitchCase test consequent) Hin). exact Hnde.
  - (* ReturnStatement, existence *)
    destruct (isNewPromiseExpression (Some a)) eqn:Hprom;
      [rewrite (Hagree a Hprom)|]; reflexivity.
  - (* ReturnStatement, exhaustiveness *)
    destruct (isNewPromiseExpression (Some a)) eqn:Hprom;
      [rewrite (Hagree a Hprom)|]; reflexivity.
  - (* SwitchCase *)
    intros nde throwOnNullReturn Hin.
    match goal with
    | H : list_all _ _ _ |- _ => apply (list_all_In _ _ H nde Hin)
    end.
  - intros nde throwOnNullReturn Hin.
    match goal with
    | H : list_all _ _ _ |- _ => apply (list_all_In _ _ H nde Hin)
    end.
Qed.


(** ** Reading [node.type] *)

Lemma node_type_BreakStatement (node : Node) :
  (node_type node =? "BreakStatement") = true <->
  exists label, node = BreakStatement label.
Proof.
  split.
  - destruct node; intros H; try (vm_compute in H; discriminate H).
    eexists; reflexivity.
  - intros [label ->]. reflexivity.
Qed.

Lemma node_type_ReturnStatement (node : Node) :
  (node_type node =? "ReturnStatement") = true <->
  exists argument, node = ReturnStatement argument.
Proof.
  split.
  - destruct node; intros H; try (vm_compute in H; discriminate H).
    eexists; reflexivity.
  - intros [argument ->]. reflexivity.
Qed.

Lemma ret_inj (a b : bool) : ret a = ret b <-> a = b.
Proof. split; [intros H; injection H; trivial | intros ->; reflexivity]. Qed.

(** ** The composite decision *)

(** C1, as stated, fails: `undefined` is in the no-value set, yet
    [return new Promise<undefined>((resolve) => { resolve(5); })] is
    decided [true]; [isVoidPromise] looks for [TSVoidKeyword] alone. *)
Lemma undefined_typed_promise_decided_true :
  has undefinedKeywords "TSUndefinedKeyword" = true
  /\ hasValueOrExecutorHasNonEmptyResolveValue
       (Some (ReturnStatement
                (Some (newPromise (Some [{| type := "TSUndefinedKeyword" |}])
                         [resolvingExecutor]))))
       false false
     = Return (VBoolean true).
Proof. split; reflexivity. Qed.

(** C1, amended. A returned [new Promise<void, ...>(...)] is decided
    [false] when [anyPromiseAsReturn] is [false], whatever the arguments of
    the construction (the executor and its body) and whatever
    [allBranches]: the filter answers [false] on it, and so does the
    decision on a [return] of it, on a function whose body is that
    [return], and on an arrow function whose expression body it is. *)
Theorem void_typed_promise_decided_false (otherTypes : list TypeNode)
    (arguments : list Node) (allBranches : bool) :
  let prom :=
    newPromise (Some ({| type := "TSVoidKeyword" |} :: otherTypes)) arguments in
  let decision (node : Node) :=
    hasValueOrExecutorHasNonEmptyResolveValue (Some node) false allBranches in
  promiseFilter false prom = false
  /\ decision (returns prom) = Return (VBoolean false)
  /\ (forall params,
        decision (FunctionDeclaration false params (BlockStatement [returns prom]))
        = Return (VBoolean false)
        /\ decision (FunctionExpression false params (BlockStatement [returns prom]))
           = Return (VBoolean false)
        /\ decision (ArrowFunctionExpression false params
                       (BlockStatement [returns prom]))
           = Return (VBoolean false)
        /\ decision (ArrowFunctionExpression true params prom)
           = Return (VBoolean false)).
Proof.
  intros prom decision. subst decision.
  repeat split; intros; destruct allBranches; reflexivity.
Qed.

(** C2, as stated, fails: [hasReturnValue] is exported with its
    [throwOnNullReturn] parameter, and a caller that sets it receives the
    'Null return' error of [return;]. *)
Lemma exported_hasReturnValue_throws_null_return :
  hasReturnValue (Some (ReturnStatement None)) true None = Throw NullReturn.
Proof. reflexivity. Qed.

(** C2, amended. 'Null return' never leaves
    [hasValueOrExecutorHasNonEmptyResolveValue]: for every node and both
    flags it returns [true] or a falsy value, or throws the [TypeError] of
    a malformed tree. Exported [hasReturnValue] always returns a value when
    called with [throwOnNullReturn] false. *)
Theorem null_return_contained :
  (forall node anyPromiseAsReturn allBranches,
      (exists v,
          hasValueOrExecutorHasNonEmptyResolveValue node anyPromiseAsReturn allBranches
          = Return v
          /\ (v = VBoolean true \/ truthy v = false))
      \/ hasValueOrExecutorHasNonEmptyResolveValue node anyPromiseAsReturn allBranches
         = Throw TypeError)
  /\ (forall node promFilter,
        exists v, hasReturnValue node false promFilter = Return v).
Proof.
  split; [|intros; apply hasReturnValue_returns].
  intros node anyPromiseAsReturn allBranches.
  assert (Hshape : forall c, completes (fun e => e = TypeError) c ->
            (exists v, c = Return v /\ (v = VBoolean true \/ truthy v = false))
            \/ c = Throw TypeError).
  { intros [v|e] Hc; cbn [completes] in Hc.
    - left. exists v. split; [reflexivity|].
      destruct (truthy v); [left; apply Hc; reflexivity | right; reflexivity].
    - right. rewrite Hc. reflexivity. }
  apply Hshape. unfold hasValueOrExecutorHasNonEmptyResolveValue.
  destruct allBranches.
  - pose proof (hasReturnValue_completes true
                  (Some (promiseFilter anyPromiseAsReturn)) node) as Hexists.
    destruct (hasReturnValue node true _) as [v|e].
    + apply completes_js_and; [exact Hexists|].
      apply allBrancheshaveReturnValues_completes.
    + destruct Hexists as [-> _]. apply completes_ret.
  - apply hasReturnValue_false_completes.
Qed.

(** C3. With [allBranches] the decision is the escalated existence check
    (EmptyReturn converted to [false]) AND exhaustiveness, the latter
    evaluated only when the former is truthy: a falsy existence check is
    the decision whatever exhaustiveness would do. Without [allBranches]
    it is plain existence. *)
Theorem decision_by_mode (node : option Node) (anyPromiseAsReturn : bool) :
  let filter := Some (promiseFilter anyPromiseAsReturn) in
  hasValueOrExecutorHasNonEmptyResolveValue node anyPromiseAsReturn true
  = existenceEscalated node filter &&& allBrancheshaveReturnValues node filter
  /\ (forall v, existenceEscalated node filter = Return v -> truthy v = false ->
        hasValueOrExecutorHasNonEmptyResolveValue node anyPromiseAsReturn true
        = Return v)
  /\ (existenceEscalated node filter = Return (VBoolean true) ->
        hasValueOrExecutorHasNonEmptyResolveValue node anyPromiseAsReturn true
        = allBrancheshaveReturnValues node filter)
  /\ hasValueOrExecutorHasNonEmptyResolveValue node anyPromiseAsReturn false
     = hasReturnValue node false filter.
Proof.
  intros filter.
  assert (Heq : hasValueOrExecutorHasNonEmptyResolveValue node anyPromiseAsReturn true
                = existenceEscalated node filter
                  &&& allBrancheshaveReturnValues node filter).
  { unfold hasValueOrExecutorHasNonEmptyResolveValue, existenceEscalated.
    fold filter. destruct (hasReturnValue node true filter) as [v|[|]]; reflexivity. }
  repeat split.
  - exact Heq.
  - intros v Hv Hfalsy. rewrite Heq, Hv. unfold js_and. rewrite Hfalsy. reflexivity.
  - intros Hv. rewrite Heq, Hv. reflexivity.
Qed.

(** Witness of [decision_by_mode]: on [{ return; }] the escalated
    existence check is [false] and is the decision; on [{ return 1; }] it
    is [true] and the decision is exhaustiveness. *)
Lemma decision_by_mode_witness :
  hasValueOrExecutorHasNonEmptyResolveValue
    (Some (BlockStatement [ReturnStatement None])) false true
  = Return (VBoolean false)
  /\ hasValueOrExecutorHasNonEmptyResolveValue
       (Some (BlockStatement [returns one])) false true
     = allBrancheshaveReturnValues (Some (BlockStatement [returns one]))
         (Some (promiseFilter false)).
Proof.
  split.
  - apply (proj1 (proj2 (decision_by_mode
                           (Some (BlockStatement [ReturnStatement None])) false))
             (VBoolean false)); reflexivity.
  - apply (proj1 (proj2 (proj2 (decision_by_mode
                                  (Some (BlockStatement [returns one])) false)))).
    reflexivity.
Defined.

(** ** Exhaustiveness, kind by kind *)

(** C5, as stated, fails on a [for] loop: [for (; true;) { if (x) return 1; }]
    has the literal [true] as its test, existence of its body is [true],
    and exhaustiveness of the loop is [false]. *)
Lemma for_loop_with_true_test_not_existence :
  let body :=
    BlockStatement
      [IfStatement (Identifier "x")
         (ReturnStatement (Some (Literal (LNumber 1)))) None] in
  let loop := ForStatement None (Some (Literal (LBoolean true))) None body in
  hasReturnValue (Some body) false None = Return (VBoolean true)
  /\ allBrancheshaveReturnValues (Some loop) None = Return (VBoolean false).
Proof. split; reflexivity. Qed.

(** C5, amended. For a [while] or [do]-[while] loop whose test is the
    literal [true], exhaustiveness is existence (without escalation) of
    the loop body; for a [while] or [do]-[while] loop with any other test,
    and for every [for], [for]-[in] and [for]-[of] loop whatever its test,
    it is exhaustiveness of the body. *)
Theorem loop_exhaustiveness (promFilter : option PromiseFilter) (body : Node) :
  let literalTrue := Literal (LBoolean true) in
  allBrancheshaveReturnValues (Some (WhileStatement literalTrue body)) promFilter
  = hasReturnValue (Some body) false promFilter
  /\ allBrancheshaveReturnValues (Some (DoWhileStatement body literalTrue)) promFilter
     = hasReturnValue (Some body) false promFilter
  /\ (forall test, test <> literalTrue ->
        allBrancheshaveReturnValues (Some (WhileStatement test body)) promFilter
        = allBrancheshaveReturnValues (Some body) promFilter
        /\ allBrancheshaveReturnValues (Some (DoWhileStatement body test)) promFilter
           = allBrancheshaveReturnValues (Some body) promFilter)
  /\ (forall init test update,
        allBrancheshaveReturnValues (Some (ForStatement init test update body)) promFilter
        = allBrancheshaveReturnValues (Some body) promFilter)
  /\ (forall left_ right_,
        allBrancheshaveReturnValues (Some (ForInStatement left_ right_ body)) promFilter
        = allBrancheshaveReturnValues (Some body) promFilter
        /\ allBrancheshaveReturnValues (Some (ForOfStatement left_ right_ body)) promFilter
           = allBrancheshaveReturnValues (Some body) promFilter).
Proof.
  intros literalTrue.
  assert (Hother : forall test,
             test <> literalTrue -> test_value_is_true test = false).
  { intros test Htest. destruct test; try reflexivity.
    match goal with v : LiteralValue |- _ => destruct v as [| [|] | | |] end;
      try reflexivity.
    exfalso; apply Htest; reflexivity. }
  split; [reflexivity|]. split; [reflexivity|]. split.
  - intros test Htest. simpl. rewrite (Hother test Htest). split; reflexivity.
  - split; intros; [|split]; reflexivity.
Qed.

(** Witness of [loop_exhaustiveness] on [while (x) {}]. *)
Lemma loop_exhaustiveness_witness :
  allBrancheshaveReturnValues
    (Some (WhileStatement (Identifier "x") (BlockStatement []))) None
  = allBrancheshaveReturnValues (Some (BlockStatement [])) None.
Proof.
  apply (proj1 (proj2 (proj2 (loop_exhaustiveness None (BlockStatement []))))
           (Identifier "x")).
  discriminate.
Defined.

(** C6. A [switch] is exhaustive exactly when no statement standing
    directly in the statement list of one of its branches is a [break] or
    an argument-less [return]; the answer is a boolean either way. *)
Theorem switch_exhaustiveness (discriminant : Node) (cases : list switchCase)
    (promFilter : option PromiseFilter) :
  let answer :=
    allBrancheshaveReturnValues (Some (SwitchStatement discriminant cases))
      promFilter in
  (answer = Return (VBoolean true) <->
   forall test consequent consNode,
     In (SwitchCase test consequent) cases -> In consNode consequent ->
     ~ breakOrBareReturn consNode)
  /\ (answer = Return (VBoolean true) \/ answer = Return (VBoolean false)).
Proof.
  intros answer. subst answer. cbn [allBrancheshaveReturnValues
                                     allBrancheshaveReturnValues_switch].
  split; [|match goal with |- ret ?b = _ \/ _ => destruct b; auto end].
  change (Return (VBoolean true)) with (ret true).
  rewrite ret_inj, forallb_forall. split.
  - intros H test consequent consNode Hcase Hcons Hbad.
    specialize (H _ Hcase). cbn beta iota in H.
    apply negb_true_iff in H.
    assert (Hfound : existsb
              (fun consNode =>
                 (node_type consNode =? "BreakStatement")
                 || (node_type consNode =? "ReturnStatement")
                    && match consNode with
                       | ReturnStatement None => true
                       | _ => false
                       end) consequent = true).
    { apply existsb_exists. exists consNode. split; [exact Hcons|].
      destruct Hbad as [[label ->]| ->]; reflexivity. }
    rewrite Hfound in H. discriminate H.
  - intros H [test consequent] Hcase. apply negb_true_iff.
    apply not_true_iff_false. intros Hfound.
    apply existsb_exists in Hfound. destruct Hfound as [consNode [Hcons Hbad]].
    apply (H test consequent consNode Hcase Hcons).
    apply orb_true_iff in Hbad. destruct Hbad as [Hbreak|Hreturn].
    + left. apply node_type_BreakStatement. exact Hbreak.
    + right. apply andb_true_iff in Hreturn. destruct Hreturn as [_ Hnull].
      destruct consNode; try discriminate Hnull.
      match goal with o : option Node |- _ => destruct o end;
        [discriminate Hnull | reflexivity].
Qed.

(** C10. A function whose body is a block with a [return] statement
    directly in it, with or without argument, is exhaustive, whatever the
    last statement of the block, as long as exhaustiveness of the block
    itself returns. *)
Theorem function_with_direct_return_exhaustive (expression : bool)
    (params : list Node) (statements : list Node)
    (promFilter : option PromiseFilter) :
  (exists nde argument, In nde statements /\ nde = ReturnStatement argument) ->
  (exists v,
      allBrancheshaveReturnValues (Some (BlockStatement statements)) promFilter
      = Return v) ->
  let body := BlockStatement statements in
  allBrancheshaveReturnValues (Some (FunctionExpression expression params body))
    promFilter = Return (VBoolean true)
  /\ allBrancheshaveReturnValues (Some (FunctionDeclaration expression params body))
       promFilter = Return (VBoolean true)
  /\ allBrancheshaveReturnValues
       (Some (ArrowFunctionExpression expression params body))
       promFilter = Return (VBoolean true).
Proof.
  intros [nde [argument [Hin ->]]] [v Hv] body.
  assert (Hsome : body_body_some
                    (fun nde => node_type nde =? "ReturnStatement") body
                  = ret true).
  { cbn [body_body_some body]. apply ret_inj. apply existsb_exists.
    exists (ReturnStatement argument). split; [exact Hin | reflexivity]. }
  assert (Hfunction :
            ret (expression &&
                 (negb (isNewPromiseExpression (Some body))
                  || negb (isVoidPromise (Some body))))
            ||| allBrancheshaveReturnValues (Some body) promFilter
            ||| body_body_some
                  (fun nde => node_type nde =? "ReturnStatement") body
            = Return (VBoolean true)).
  { rewrite Hsome. fold body in Hv. rewrite Hv.
    pose proof (allBrancheshaveReturnValues_completes promFilter (Some body))
      as Hshape.
    rewrite Hv in Hshape. cbn [completes] in Hshape.
    destruct expression; [reflexivity|].
    unfold js_or. cbn [andb ret truthy].
    destruct (truthy v); [rewrite (Hshape eq_refl)|]; reflexivity. }
  repeat split; exact Hfunction.
Qed.

(** Witness of [function_with_direct_return_exhaustive] on
    [function () { return; x; }]. *)
Lemma function_with_direct_return_exhaustive_witness :
  allBrancheshaveReturnValues
    (Some (FunctionExpression false []
             (BlockStatement
                [ReturnStatement None; ExpressionStatement (Identifier "x")])))
    None
  = Return (VBoolean true).
Proof.
  apply (function_with_direct_return_exhaustive false []
           [ReturnStatement None; ExpressionStatement (Identifier "x")] None).
  - exists (ReturnStatement None), None. split; [left|]; reflexivity.
  - exists (VBoolean false). reflexivity.
Defined.

Lemma js_and_true_iff (a b : completion) :
  completes (fun _ => True) a ->
  (a &&& b = Return (VBoolean true)
   <-> a = Return (VBoolean true) /\ b = Return (VBoolean true)).
Proof.
  intros Ha. split.
  - destruct a as [v|e]; cbn [js_and]; [|discriminate].
    destruct (truthy v) eqn:Hv.
    + cbn [completes] in Ha. rewrite (Ha Hv). auto.
    + intros H. injection H as ->. discriminate Hv.
  - intros [-> ->]. reflexivity.
Qed.

Lemma allBranches_completes_any (promFilter : option PromiseFilter)
    (node : option Node) :
  completes (fun _ => True) (allBrancheshaveReturnValues node promFilter).
Proof.
  eapply completes_weaken; [|apply allBrancheshaveReturnValues_completes].
  trivial.
Qed.

Lemma noNullReturn_true_iff (promFilter : option PromiseFilter) (node : option Node) :
  noNullReturn (hasReturnValue node true promFilter) = Return (VBoolean true)
  <-> hasReturnValue node true promFilter <> Throw NullReturn.
Proof.
  pose proof (hasReturnValue_completes true promFilter node) as H.
  destruct (hasReturnValue node true promFilter) as [v|e]; cbn [noNullReturn].
  - split; [discriminate | reflexivity].
  - destruct H as [-> _]. split; [discriminate | intros H; contradiction H; reflexivity].
Qed.

(** C4. A [try] statement whose finalizer exists and is exhaustive is
    exhaustive, whatever its block and handler. When there is no finalizer
    or the finalizer is not exhaustive, the statement is exhaustive exactly
    when its block is, the body of its handler (if any) is, and existence
    in escalation mode over its finalizer (if any) does not raise the
    EmptyReturn signal. *)
Theorem try_exhaustiveness (block : Node) (handler : option catchClause)
    (finalizer : option Node) (promFilter : option PromiseFilter) :
  let answer :=
    allBrancheshaveReturnValues (Some (TryStatement block handler finalizer))
      promFilter in
  (forall final, finalizer = Some final -> exhaustive promFilter final ->
     answer = Return (VBoolean true))
  /\ ((finalizer = None
       \/ exists final, finalizer = Some final /\ notExhaustive promFilter final) ->
      (answer = Return (VBoolean true)
       <-> exhaustive promFilter block
           /\ (forall param body, handler = Some (CatchClause param body) ->
                 exhaustive promFilter body)
           /\ (forall final, finalizer = Some final ->
                 hasReturnValue (Some final) true promFilter <> Throw NullReturn))).
Proof.
  intros answer. subst answer. unfold exhaustive, notExhaustive.
  cbn [allBrancheshaveReturnValues allBrancheshaveReturnValues_switch].
  fold (allBrancheshaveReturnValues (Some block) promFilter).
  split.
  - intros final -> Hfinal. cbn [allBrancheshaveReturnValues] in Hfinal.
    rewrite Hfinal. reflexivity.
  - intros Hfinalizer.
    assert (Hleft : forall rest,
               match finalizer with
               | Some final => allBrancheshaveReturnValues_switch final promFilter
               | None => Return VNull
               end ||| rest = rest).
    { intros rest. destruct Hfinalizer as [->|[final [-> [v [Hv Hfalsy]]]]].
      - reflexivity.
      - cbn [allBrancheshaveReturnValues] in Hv. rewrite Hv.
        cbn [js_or]. rewrite Hfalsy. reflexivity. }
    rewrite Hleft. clear Hleft Hfinalizer.
    rewrite js_and_true_iff.
    2:{ apply completes_js_and; [apply allBranches_completes_any|].
        destruct handler as [[param body]|]; [|apply completes_ret].
        apply (allBranches_completes_any promFilter (Some body)). }
    rewrite js_and_true_iff by apply allBranches_completes_any.
    assert (Hhandler :
              match handler with
              | Some (CatchClause _ body) =>
                  allBrancheshaveReturnValues_switch body promFilter
              | None => ret true
              end = Return (VBoolean true)
              <-> (forall param body, handler = Some (CatchClause param body) ->
                     allBrancheshaveReturnValues (Some body) promFilter
                     = Return (VBoolean true))).
    { destruct handler as [[param body]|]; split.
      - intros H param' body' [= _ <-]. exact H.
      - intros H. exact (H param body eq_refl).
      - intros _ param body [=].
      - reflexivity. }
    assert (Hfinal :
              match finalizer with
              | Some final =>
                  noNullReturn (hasReturnValue (Some final) true promFilter)
              | None => ret true
              end = Return (VBoolean true)
              <-> (forall final, finalizer = Some final ->
                     hasReturnValue (Some final) true promFilter
                     <> Throw NullReturn)).
    { destruct finalizer as [final|]; split.
      - intros H final' [= <-]. apply noNullReturn_true_iff. exact H.
      - intros H. apply noNullReturn_true_iff. exact (H final eq_refl).
      - intros _ final [=].
      - reflexivity. }
    tauto.
Qed.

(** Witness of [try_exhaustiveness] on
    [try { return 1; } finally { return 2; }] and on
    [try { return 1; } catch { return 2; }]. *)
Lemma try_exhaustiveness_witness :
  allBrancheshaveReturnValues
    (Some (TryStatement (BlockStatement [returns one]) None
             (Some (BlockStatement [returns two]))))
    None
  = Return (VBoolean true)
  /\ allBrancheshaveReturnValues
       (Some (TryStatement (BlockStatement [returns one])
                (Some (CatchClause None (BlockStatement [returns two])))
                None))
       None
     = Return (VBoolean true).
Proof.
  split.
  - apply (proj1 (try_exhaustiveness (BlockStatement [returns one]) None
                    (Some (BlockStatement [returns two])) None)
             (BlockStatement [returns two])); reflexivity.
  - apply (proj2 (try_exhaustiveness (BlockStatement [returns one])
                    (Some (CatchClause None (BlockStatement [returns two])))
                    None None)
             (or_introl eq_refl)).
    split; [reflexivity|]. split.
    + intros param body [= _ <-]. reflexivity.
    + intros final [=].
Defined.

(** ** Resolver usage *)

Lemma existsb_In_true {A : Type} (f : A -> bool) (l : list A) (x : A) :
  In x l -> f x = true -> existsb f l = true.
Proof. intros Hin Hx. apply existsb_exists. exists x. auto. Qed.

Lemma strict_eq_refl (a : option string) : strict_eq a a = true.
Proof. destruct a as [x|]; [apply String.eqb_refl | reflexivity]. Qed.

(** One level of the traversal: a node that the traversal answers [true]
    on, below a visited child, makes the parent answer [true]. *)
Lemma hasNonEmptyResolverCall_switch_child (resolverName : option string)
    (node child : Node) :
  In child (visited resolverName node) ->
  hasNonEmptyResolverCall_switch child resolverName = true ->
  hasNonEmptyResolverCall_switch node resolverName = true.
Proof.
  intros Hin Hchild.
  destruct node; cbn [visited] in Hin; try (destruct Hin; fail);
    cbn [hasNonEmptyResolverCall_switch].
  all: repeat match goal with
         | H : In _ (if ?b then _ else _) |- _ => destruct b
         | o : option Node |- _ => destruct o
         | o : option (list Node) |- _ => destruct o
         | o : option catchClause |- _ => destruct o
         | b : bool |- _ => destruct b
         | c : catchClause |- _ => destruct c
         end;
    cbn [optional app] in Hin;
    repeat rewrite ?in_app_iff, ?in_flat_map in Hin;
    repeat rewrite ?orb_true_iff, ?andb_true_iff, ?existsb_exists;
    cbn [In] in Hin;
    try solve [intuition (subst; eauto)].
  - (* SwitchStatement *)
    destruct Hin as [[test consequent] [Hcase Hcons]].
    exists (SwitchCase test consequent). split; [exact Hcase|].
    apply (existsb_In_true _ _ child Hcons Hchild).
  - (* CallExpression *)
    right. exists child. split; [exact Hin|].
    rewrite Hchild. apply orb_true_r.
  - (* ArrayExpression *)
    destruct Hin as [[element|] [Helement Hin]]; [|destruct Hin].
    exists (Some element). split; [exact Helement|].
    destruct Hin as [<-|[]]. exact Hchild.
  - (* ArrayPattern *)
    destruct Hin as [[element|] [Helement Hin]]; [|destruct Hin].
    exists (Some element). split; [exact Helement|].
    destruct Hin as [<-|[]]. exact Hchild.
Qed.

Lemma hasNonEmptyResolverCall_switch_reachable (resolverName : option string)
    (root node : Node) :
  reachable resolverName root node ->
  hasNonEmptyResolverCall_switch node resolverName = true ->
  hasNonEmptyResolverCall_switch root resolverName = true.
Proof.
  induction 1 as [node|root child node Hchild _ IH]; intros Hnode.
  - exact Hnode.
  - apply (hasNonEmptyResolverCall_switch_child _ _ child Hchild).
    apply IH. exact Hnode.
Qed.

(** Within its coverage the traversal misses nothing: it answers [true]
    whenever it arrives, along the children listed by [visited], at a call
    of the bare resolver identifier with at least one argument slot
    (whatever stands in the slot, the identifier [undefined] included), or
    at a call of anything that has the bare resolver identifier among its
    arguments. *)
Lemma resolver_usage_found (resolver : string) (root node : Node) :
  reachable (Some resolver) root node ->
  callsResolver resolver node \/ passesResolver resolver node ->
  hasNonEmptyResolverCall (Some root) (Some resolver) = true.
Proof.
  intros Hreach Hnode. cbn [hasNonEmptyResolverCall].
  apply (hasNonEmptyResolverCall_switch_reachable _ _ node Hreach).
  destruct Hnode as [[argument0 [arguments ->]]|[callee [arguments [-> Hin]]]];
    cbn [hasNonEmptyResolverCall_switch].
  - cbn [node_name strict_eq nth_error]. rewrite String.eqb_refl.
    rewrite orb_true_r. reflexivity.
  - apply orb_true_iff. right.
    apply (existsb_In_true _ _ (Identifier resolver) Hin).
    cbn [node_type node_name strict_eq]. rewrite !String.eqb_refl. reflexivity.
Qed.

(** [resolver_usage_found] on the body of
    [(resolve) => { doWork(resolve); }]. *)
Lemma resolver_usage_found_witness :
  hasNonEmptyResolverCall
    (Some (BlockStatement
             [ExpressionStatement
                (CallExpression (Identifier "doWork") [Identifier "resolve"])]))
    (Some "resolve")
  = true.
Proof.
  apply (resolver_usage_found "resolve" _
           (CallExpression (Identifier "doWork") [Identifier "resolve"])).
  - eapply reachable_below; [left; reflexivity|].
    eapply reachable_below; [left; reflexivity|].
    apply reachable_here.
  - right. exists (Identifier "doWork"), [Identifier "resolve"].
    split; [reflexivity | left; reflexivity].
Defined.

(** C7. The coverage has gaps, and there the traversal answers [false]
    on a use of the resolver that nothing shadows.  The callee of a call
    is not descended into: in [{ doWork(resolve).catch(console.error); }]
    the resolver is an argument of the call [doWork(resolve)], the object
    of the callee of the statement's call, and the answer is [false]; a
    returned [new Promise((resolve) => { ... })] with this body is decided
    [false].  Nor are the arguments of [new]: in
    [{ new Wrapper(resolve(5)); }] the resolver is called with an argument
    and the answer is [false]. *)
Theorem resolver_use_outside_coverage_missed :
  let passed := CallExpression (Identifier "doWork") [Identifier "resolve"] in
  let chained :=
    BlockStatement
      [ExpressionStatement
         (CallExpression (MemberExpression passed (Identifier "catch"))
            [MemberExpression (Identifier "console") (Identifier "error")])] in
  let called := CallExpression (Identifier "resolve") [Literal (LNumber 5)] in
  let constructed :=
    BlockStatement
      [ExpressionStatement (NewExpression (Identifier "Wrapper") None [called])] in
  (passesResolver "resolve" passed
   /\ hasNonEmptyResolverCall (Some chained) (Some "resolve") = false
   /\ hasValueOrExecutorHasNonEmptyResolveValue
        (Some (returns
                 (newPromise None
                    [ArrowFunctionExpression false [Identifier "resolve"] chained])))
        false false
      = Return (VBoolean false))
  /\ (callsResolver "resolve" called
      /\ hasNonEmptyResolverCall (Some constructed) (Some "resolve") = false).
Proof.
  intros passed chained called constructed. split; split.
  - exists (Identifier "doWork"), [Identifier "resolve"].
    split; [reflexivity | left; reflexivity].
  - split; reflexivity.
  - exists (Literal (LNumber 5)), []. reflexivity.
  - reflexivity.
Qed.

(** C8. A function expression, function declaration or arrow function
    whose first parameter is named like the resolver makes the traversal
    answer [false], whatever its body holds: the traversal visits nothing
    below it. *)
Theorem shadowing_function_excluded (resolver : string) (expression : bool)
    (param0 : Node) (params : list Node) (body : Node) :
  node_name param0 = Some resolver ->
  let shadowed (node : Node) : Prop :=
    hasNonEmptyResolverCall (Some node) (Some resolver) = false
    /\ visited (Some resolver) node = [] in
  shadowed (FunctionExpression expression (param0 :: params) body)
  /\ shadowed (FunctionDeclaration expression (param0 :: params) body)
  /\ shadowed (ArrowFunctionExpression expression (param0 :: params) body).
Proof.
  intros Hname shadowed. subst shadowed.
  cbn [hasNonEmptyResolverCall hasNonEmptyResolverCall_switch visited].
  rewrite Hname, strict_eq_refl. repeat split.
Qed.

(** Witness of [shadowing_function_excluded] on
    [function inner(resolve) { resolve(1); }]. *)
Lemma shadowing_function_excluded_witness :
  hasNonEmptyResolverCall
    (Some (FunctionDeclaration false [Identifier "resolve"]
             (BlockStatement
                [ExpressionStatement
                   (CallExpression (Identifier "resolve") [Literal (LNumber 1)])])))
    (Some "resolve")
  = false.
Proof.
  apply (shadowing_function_excluded "resolve" false (Identifier "resolve") []
           (BlockStatement
              [ExpressionStatement
                 (CallExpression (Identifier "resolve") [Literal (LNumber 1)])])).
  reflexivity.
Defined.

Lemma node_name_Some (node : Node) (name : string) :
  node_name node = Some name -> node = Identifier name.
Proof. destruct node; intros [= ->]. reflexivity. Qed.

Lemma resolverCall_iff (resolver : string) (node : Node) :
  resolverCall (Some resolver) node = true
  <-> callsResolver resolver node \/ passesResolver resolver node.
Proof.
  split.
  - destruct node; try discriminate. cbn [resolverCall].
    intros H. apply orb_true_iff in H. destruct H as [H|H].
    + left. apply andb_true_iff in H. destruct H as [Hcallee Hslot].
      destruct (node_name node) as [name|] eqn:Hname; [|discriminate Hcallee].
      cbn [strict_eq] in Hcallee. apply String.eqb_eq in Hcallee. subst name.
      apply node_name_Some in Hname. subst node.
      destruct arguments as [|argument0 arguments]; [discriminate Hslot|].
      exists argument0, arguments. reflexivity.
    + right. apply existsb_exists in H. destruct H as [nde [Hin H]].
      apply andb_true_iff in H. destruct H as [_ Hname].
      destruct (node_name nde) as [name|] eqn:Hnde; [|discriminate Hname].
      cbn [strict_eq] in Hname. apply String.eqb_eq in Hname. subst name.
      apply node_name_Some in Hnde. subst nde.
      exists node, arguments. auto.
  - intros [[argument0 [arguments ->]]|[callee [arguments [-> Hin]]]];
      cbn [resolverCall].
    + cbn [node_name strict_eq nth_error]. rewrite String.eqb_refl.
      rewrite orb_true_r. reflexivity.
    + apply orb_true_iff. right.
      apply (existsb_In_true _ _ (Identifier resolver) Hin).
      cbn [node_type node_name strict_eq]. rewrite !String.eqb_refl. reflexivity.
Qed.

Lemma existsb_orb {A : Type} (f g : A -> bool) (l : list A) :
  existsb (fun x => f x || g x) l = existsb f l || existsb g l.
Proof.
  induction l as [|x l IH]; cbn [existsb]; [reflexivity|].
  rewrite IH. destruct (f x), (g x), (existsb f l); reflexivity.
Qed.

(** One level of the traversal, downwards: a [true] answer comes from the
    test at the node itself or from a visited child. *)
Lemma hasNonEmptyResolverCall_switch_step (resolverName : option string)
    (node : Node) :
  hasNonEmptyResolverCall_switch node resolverName = true ->
  resolverCall resolverName node = true
  \/ exists child,
       In child (visited resolverName node)
       /\ hasNonEmptyResolverCall_switch child resolverName = true.
Proof.
  destruct node; cbn [hasNonEmptyResolverCall_switch visited resolverCall];
    try discriminate.
  all: repeat match goal with
         | |- context [if strict_eq ?a ?b then _ else _] =>
             destruct (strict_eq a b)
         | b : bool |- _ => destruct b
         | o : option Node |- _ => destruct o
         | o : option (list Node) |- _ => destruct o
         | o : option catchClause |- _ => destruct o
         | c : catchClause |- _ => destruct c
         end;
    try discriminate;
    cbn [optional app];
    repeat rewrite ?orb_true_iff, ?andb_true_iff, ?existsb_exists;
    try solve [intros H; right;
               repeat match goal with
                      | H : _ \/ _ |- _ => destruct H
                      | H : _ /\ _ |- _ => destruct H
                      | H : exists _, _ |- _ => destruct H
                      | H : false = true |- _ => discriminate H
                      end;
               (eexists; split; [|eassumption]);
               repeat rewrite in_app_iff; cbn [In]; auto 10].
  - (* SwitchStatement *)
    intros [[test consequent] [Hcase Hcons]]. right.
    apply existsb_exists in Hcons. destruct Hcons as [nde [Hnde Htrue]].
    exists nde. split; [|exact Htrue].
    apply in_flat_map. exists (SwitchCase test consequent). auto.
  - (* CallExpression *)
    intros [Hcall|[nde [Hin Hnde]]]; [left; left; exact Hcall|].
    apply orb_true_iff in Hnde. destruct Hnde as [Hpassed|Hnested].
    + left. right. exists nde. auto.
    + right. exists nde. auto.
  - (* ArrayExpression *)
    intros [[element|] [Hin Htrue]]; [|discriminate Htrue]. right.
    exists element. split; [|exact Htrue].
    apply in_flat_map. exists (Some element). split; [exact Hin | left; reflexivity].
  - (* ArrayPattern *)
    intros [[element|] [Hin Htrue]]; [|discriminate Htrue]. right.
    exists element. split; [|exact Htrue].
    apply in_flat_map. exists (Some element). split; [exact Hin | left; reflexivity].
Qed.

(** Every node has its visited children below it: induction along the
    traversal. *)
Lemma visited_ind (resolverName : option string) (P : Node -> Prop) :
  (forall node, (forall child, In child (visited resolverName node) -> P child) ->
                P node) ->
  forall node, P node.
Proof.
  intros Hstep node.
  induction node using Node_mutind with
    (P0 := fun clause => match clause with CatchClause _ body => P body end)
    (P1 := fun someCase =>
             match someCase with
             | SwitchCase _ consequent => forall nde, In nde consequent -> P nde
             end);
    try assumption; try (apply list_all_In; assumption);
    try (apply Hstep; cbn [visited]; intros child Hin).
  all: try (destruct Hin; fail).
  all: repeat match goal with
         | H : In _ (if ?b then _ else _) |- _ => destruct b
         | H : option_all _ _ _ |- _ => destruct H
         | c : catchClause |- _ => destruct c
         | b : bool |- _ => destruct b
         end;
    cbn [optional app] in *;
    repeat rewrite ?in_app_iff in Hin;
    cbn [In] in *;
    repeat match goal with
           | H : list_all _ _ _ |- _ =>
               generalize (list_all_In _ _ H); clear H; intro H
           end;
    try solve [intuition (subst; eauto)].
  - (* SwitchStatement *)
    apply in_flat_map in Hin. destruct Hin as [[test consequent] [Hcase Hnde]].
    exact (H _ Hcase child Hnde).
  - (* ArrayExpression *)
    apply in_flat_map in Hin. destruct Hin as [[element|] [Helement Hin]];
      [|destruct Hin].
    destruct Hin as [<-|[]].
    exact (list_all_option_In _ _ H _ Helement).
  - (* ArrayPattern *)
    apply in_flat_map in Hin. destruct Hin as [[element|] [Helement Hin]];
      [|destruct Hin].
    destruct Hin as [<-|[]].
    exact (list_all_option_In _ _ H _ Helement).
Qed.

(** The traversal answers [true] only when it arrives at a call that
    passes the test: [reachable] and the test at calls describe the
    traversal exactly. *)
Lemma resolver_usage_only_at_calls (resolverName : option string) (root : Node) :
  hasNonEmptyResolverCall_switch root resolverName = true ->
  exists node,
    reachable resolverName root node /\ resolverCall resolverName node = true.
Proof.
  induction root as [root IH] using (visited_ind resolverName).
  intros Htrue.
  destruct (hasNonEmptyResolverCall_switch_step _ _ Htrue)
    as [Hhere|[child [Hchild Hbelow]]].
  - exists root. split; [apply reachable_here | exact Hhere].
  - destruct (IH child Hchild Hbelow) as [node [Hreach Hcall]].
    exists node. split; [|exact Hcall].
    apply (reachable_below _ _ child); assumption.
Qed.

(** ** The decision on parsed trees

    On the trees a parser hands over (a statement, a function with a block
    body, or an arrow function with an expression body) the decision
    always returns: it takes a malformed tree for [node.body.body.some] to
    throw its [TypeError] there. *)
Lemma decision_returns (node : Node) (anyPromiseAsReturn allBranches : bool) :
  blockBodiedFunctions node = true
  \/ (exists params body, node = ArrowFunctionExpression true params body) ->
  exists v,
    hasValueOrExecutorHasNonEmptyResolveValue (Some node)
      anyPromiseAsReturn allBranches = Return v.
Proof.
  intros Hnode. unfold hasValueOrExecutorHasNonEmptyResolveValue.
  destruct allBranches; [|apply hasReturnValue_returns].
  set (filter := Some (promiseFilter anyPromiseAsReturn)).
  pose proof (hasReturnValue_completes true filter (Some node)) as Hexists.
  destruct (hasReturnValue (Some node) true filter) as [v|e] eqn:Hv.
  2:{ destruct Hexists as [-> _]. eexists. reflexivity. }
  cbn [js_and]. destruct (truthy v) eqn:Htruthy; [|eauto].
  destruct Hnode as [Hwf|[params [body ->]]].
  - pose proof (allBrancheshaveReturnValues_switch_returns filter node Hwf) as H.
    cbn [allBrancheshaveReturnValues].
    destruct (allBrancheshaveReturnValues_switch node filter) as [w|e];
      [eauto | destruct H].
  - cbn [hasReturnValue hasReturnValue_switch] in Hv.
    cbn [allBrancheshaveReturnValues allBrancheshaveReturnValues_switch].
    cbn [andb] in *.
    destruct (negb (isNewPromiseExpression (Some body))
              || negb (isVoidPromise (Some body))) eqn:Hvalued.
    + eexists. reflexivity.
    + exfalso. apply orb_false_iff in Hvalued. destruct Hvalued as [Hnew _].
      apply negb_false_iff in Hnew.
      destruct body; try discriminate Hnew.
      cbn in Hv. injection Hv as <-. discriminate Htruthy.
Qed.

(** ** The examples of the specification *)

(** [{ if (x) { return 1; } }]: existence holds, exhaustiveness does not. *)
Example if_without_else :
  let body :=
    BlockStatement
      [IfStatement (Identifier "x") (BlockStatement [returns one]) None] in
  hasReturnValue (Some body) false None = Return (VBoolean true)
  /\ allBrancheshaveReturnValues (Some body) None = Return (VBoolean false).
Proof. split; reflexivity. Qed.

(** [{ if (x) { return 1; } else { return 2; } }]: both hold. *)
Example if_with_else :
  let body :=
    BlockStatement
      [IfStatement (Identifier "x") (BlockStatement [returns one])
         (Some (BlockStatement [returns two]))] in
  hasReturnValue (Some body) false None = Return (VBoolean true)
  /\ allBrancheshaveReturnValues (Some body) None = Return (VBoolean true).
Proof. split; reflexivity. Qed.

(** A [switch] whose cases end in a valued [return] is exhaustive; one
    more case with a bare [break] makes it not exhaustive. *)
Example switch_with_break :
  let returning := SwitchCase (Some one) [returns one] in
  let breaking := SwitchCase (Some two) [BreakStatement None] in
  allBrancheshaveReturnValues
    (Some (SwitchStatement (Identifier "x") [returning; returning])) None
  = Return (VBoolean true)
  /\ allBrancheshaveReturnValues
       (Some (SwitchStatement (Identifier "x") [returning; breaking])) None
     = Return (VBoolean false).
Proof. split; reflexivity. Qed.

(** [return new Promise((resolve) => { resolve(5); })] is a valued
    return. *)
Example resolved_promise :
  hasValueOrExecutorHasNonEmptyResolveValue
    (Some (returns (newPromise None [resolvingExecutor]))) false false
  = Return (VBoolean true).
Proof. reflexivity. Qed.

(** [resolve()] leaves no argument slot; [resolve(undefined)] fills one. *)
Example resolve_without_argument :
  let executor (arguments : list Node) :=
    ArrowFunctionExpression false [Identifier "resolve"]
      (BlockStatement
         [ExpressionStatement (CallExpression (Identifier "resolve") arguments)]) in
  hasValueOrExecutorHasNonEmptyResolveValue
    (Some (returns (newPromise None [executor []]))) false false
  = Return (VBoolean false)
  /\ hasValueOrExecutorHasNonEmptyResolveValue
       (Some (returns (newPromise None [executor [Identifier "undefined"]])))
       false false
     = Return (VBoolean true).
Proof. split; reflexivity. Qed.

(** [new Promise((resolve) => { function inner(resolve) { resolve(1); } })]:
    the inner parameter shadows the resolver. *)
Example shadowed_resolver :
  let inner :=
    FunctionDeclaration false [Identifier "resolve"]
      (BlockStatement
         [ExpressionStatement (CallExpression (Identifier "resolve") [one])]) in
  let executor :=
    ArrowFunctionExpression false [Identifier "resolve"] (BlockStatement [inner]) in
  hasValueOrExecutorHasNonEmptyResolveValue
    (Some (returns (newPromise None [executor]))) false false
  = Return (VBoolean false).
Proof. reflexivity. Qed.

(** [() => new Promise<void>(...)]: exhaustiveness on its own throws a
    [TypeError] at [node.body.body.some]; the decision never gets there,
    its existence check being [false]. *)
Example void_promise_arrow :
  let arrow :=
    ArrowFunctionExpression true []
      (newPromise (Some [{| type := "TSVoidKeyword" |}]) [resolvingExecutor]) in
  allBrancheshaveReturnValues (Some arrow) None = Throw TypeError
  /\ hasValueOrExecutorHasNonEmptyResolveValue (Some arrow) false true
     = Return (VBoolean false).
Proof. split; reflexivity. Qed.

(** A signature without return type is decided [undefined], not [false]. *)
Example signature_without_return_type :
  hasValueOrExecutorHasNonEmptyResolveValue
    (Some (TSDeclareFunction [] None)) false true
  = Return VUndefined.
Proof. reflexivity. Qed.

(** * Further properties *)

(** ** Escalation only adds the throw *)

Lemma escalation_refl (c : completion) : escalation c c.
Proof. right. reflexivity. Qed.

Lemma escalation_js_or (a a' b b' : completion) :
  escalation a a' -> escalation b b' -> escalation (a ||| b) (a' ||| b').
Proof.
  intros [->| <-] Hb; [left; reflexivity|].
  destruct a as [v|e]; cbn [js_or]; [|apply escalation_refl].
  destruct (truthy v); [apply escalation_refl | exact Hb].
Qed.

Lemma escalation_js_and (a a' b b' : completion) :
  escalation a a' -> escalation b b' -> escalation (a &&& b) (a' &&& b').
Proof.
  intros [->| <-] Hb; [left; reflexivity|].
  destruct a as [v|e]; cbn [js_and]; [|apply escalation_refl].
  destruct (truthy v); [exact Hb | apply escalation_refl].
Qed.

Lemma escalation_some {A : Type} (callback callback' : A -> completion)
    (array : list A) :
  (forall x, In x array -> escalation (callback x) (callback' x)) ->
  escalation (some callback array) (some callback' array).
Proof.
  induction array as [|x rest IH]; intros H; cbn [some];
    [apply escalation_refl|].
  destruct (H x (or_introl eq_refl)) as [->| <-]; [left; reflexivity|].
  destruct (callback x) as [v|e]; [|apply escalation_refl].
  destruct (truthy v); [apply escalation_refl|].
  apply IH. intros y Hy. apply H. right. exact Hy.
Qed.

Lemma hasReturnValue_switch_escalation (promFilter : option PromiseFilter)
    (node : Node) :
  escalation (hasReturnValue_switch node true promFilter)
    (hasReturnValue_switch node false promFilter).
Proof.
  induction node using Node_mutind with
    (P0 := fun clause =>
             match clause with
             | CatchClause _ body =>
                 escalation (hasReturnValue_switch body true promFilter)
                   (hasReturnValue_switch body false promFilter)
             end)
    (P1 := fun someCase =>
             match someCase with
             | SwitchCase _ consequent =>
                 forall nde, In nde consequent ->
                   escalation (hasReturnValue_switch nde true promFilter)
                     (hasReturnValue_switch nde false promFilter)
             end);
    cbn [hasReturnValue_switch];
    try apply escalation_refl;
    repeat match goal with
           | |- escalation (_ ||| _) (_ ||| _) => apply escalation_js_or
           | |- escalation (_ &&& _) (_ &&& _) => apply escalation_js_and
           | |- escalation (some _ _) (some _ _) =>
               apply escalation_some; intros ? ?
           | H : list_all _ _ ?l, Hin : In ?x ?l |- _ =>
               generalize (list_all_In _ _ H x Hin); clear H; intro H
           | H : forall x, In x ?l -> _, Hin : In ?x ?l |- _ =>
               generalize (H x Hin); clear H; intro H
           | H : option_all _ _ ?o |- context [match ?o with _ => _ end] =>
               destruct H
           | |- context [match ?c with CatchClause _ _ => _ end] => destruct c
           | |- context [match ?c with SwitchCase _ _ => _ end] => destruct c
           | |- escalation ?c ?c => apply escalation_refl
           | _ => assumption
           end.
  - left. reflexivity.
  - apply list_all_In. assumption.
Qed.

(** X1. Escalation changes the existence traversal in one way only: with
    [throwOnNullReturn] it throws 'Null return', or it completes exactly
    as it does without. *)
Theorem escalation_only_adds_the_throw (node : option Node)
    (promFilter : option PromiseFilter) :
  hasReturnValue node true promFilter = Throw NullReturn
  \/ hasReturnValue node true promFilter = hasReturnValue node false promFilter.
Proof.
  destruct node as [node|]; [|right; reflexivity].
  apply hasReturnValue_switch_escalation.
Qed.

(** The decision completes like the traversals: [true], a falsy value, or
    the [TypeError] of exhaustiveness. *)
Lemma decision_completes (node : option Node)
    (anyPromiseAsReturn allBranches : bool) :
  completes (fun e => e = TypeError)
    (hasValueOrExecutorHasNonEmptyResolveValue node anyPromiseAsReturn allBranches).
Proof.
  unfold hasValueOrExecutorHasNonEmptyResolveValue. destruct allBranches.
  - pose proof (hasReturnValue_completes true
                  (Some (promiseFilter anyPromiseAsReturn)) node) as Hexists.
    destruct (hasReturnValue node true _) as [v|e].
    + apply completes_js_and; [exact Hexists|].
      apply allBrancheshaveReturnValues_completes.
    + destruct Hexists as [-> _]. apply completes_ret.
  - apply hasReturnValue_false_completes.
Qed.

(** X2. The all-branches mode is the stricter one: a node that is
    decided [true] with [allBranches] is decided [true] without. *)
Theorem all_branches_decision_is_stricter (node : option Node)
    (anyPromiseAsReturn : bool) :
  hasValueOrExecutorHasNonEmptyResolveValue node anyPromiseAsReturn true
  = Return (VBoolean true) ->
  hasValueOrExecutorHasNonEmptyResolveValue node anyPromiseAsReturn false
  = Return (VBoolean true).
Proof.
  unfold hasValueOrExecutorHasNonEmptyResolveValue.
  set (filter := Some (promiseFilter anyPromiseAsReturn)).
  pose proof (hasReturnValue_completes true filter node) as Hshape.
  assert (Hesc : escalation (hasReturnValue node true filter)
                   (hasReturnValue node false filter)).
  { destruct node as [node|]; [|right; reflexivity].
    apply hasReturnValue_switch_escalation. }
  destruct (hasReturnValue node true filter) as [v|e].
  - destruct Hesc as [Hthrow| <-]; [discriminate Hthrow|].
    cbn [js_and completes] in *. destruct (truthy v).
    + intros _. rewrite (Hshape eq_refl). reflexivity.
    + intros H. exact H.
  - destruct Hshape as [-> _]. discriminate.
Qed.

(** Witness of [all_branches_decision_is_stricter] on
    [{ if (x) { return 1; } else { return 2; } }]. *)
Lemma all_branches_decision_is_stricter_witness :
  hasValueOrExecutorHasNonEmptyResolveValue
    (Some (BlockStatement
             [IfStatement (Identifier "x") (BlockStatement [returns one])
                (Some (BlockStatement [returns two]))]))
    false false
  = Return (VBoolean true).
Proof.
  apply (all_branches_decision_is_stricter
           (Some (BlockStatement
                    [IfStatement (Identifier "x") (BlockStatement [returns one])
                       (Some (BlockStatement [returns two]))]))
           false).
  reflexivity.
Defined.

(** ** Filters *)

(** The traversals consult the filter on returned [new Promise(...)]
    expressions and nowhere else, and an absent filter is one that
    answers [true]. *)
Lemma traversals_by_filter_answers (promFilter promFilter' : option PromiseFilter) :
  (forall prom, isNewPromiseExpression (Some prom) = true ->
                answer promFilter prom = answer promFilter' prom) ->
  forall node,
    (forall throwOnNullReturn,
        hasReturnValue_switch node throwOnNullReturn promFilter
        = hasReturnValue_switch node throwOnNullReturn promFilter')
    /\ allBrancheshaveReturnValues_switch node promFilter
       = allBrancheshaveReturnValues_switch node promFilter'.
Proof.
  intros Hagree node.
  assert (Hreturn : forall argument,
             match promFilter with
             | Some promFilter =>
                 if isNewPromiseExpression (Some argument)
                 then ret (promFilter argument)
                 else ret true
             | None => ret true
             end
             = match promFilter' with
               | Some promFilter =>
                   if isNewPromiseExpression (Some argument)
                   then ret (promFilter argument)
                   else ret true
               | None => ret true
               end).
  { intros argument. specialize (Hagree argument).
    destruct (isNewPromiseExpression (Some argument));
      destruct promFilter, promFilter'; cbn [answer] in Hagree;
      try reflexivity; rewrite ?(Hagree eq_refl), <- ?(Hagree eq_refl);
      reflexivity. }
  induction node using Node_mutind with
    (P0 := fun clause =>
             match clause with
             | CatchClause _ body =>
                 (forall throwOnNullReturn,
                     hasReturnValue_switch body throwOnNullReturn promFilter
                     = hasReturnValue_switch body throwOnNullReturn promFilter')
                 /\ allBrancheshaveReturnValues_switch body promFilter
                    = allBrancheshaveReturnValues_switch body promFilter'
             end)
    (P1 := fun someCase =>
             match someCase with
             | SwitchCase _ consequent =>
                 forall nde throwOnNullReturn, In nde consequent ->
                   hasReturnValue_switch nde throwOnNullReturn promFilter
                   = hasReturnValue_switch nde throwOnNullReturn promFilter'
             end).
  all: repeat match goal with
         | H : (forall t, _ = _) /\ _ |- _ => destruct H
         | H : option_all _ _ _ |- _ => destruct H
         | c : catchClause |- _ => destruct c
         end.
  all: try (split; [intros throwOnNullReturn|]);
    cbn [hasReturnValue_switch allBrancheshaveReturnValues_switch hasReturnValue];
    repeat match goal with
           | H : forall t, hasReturnValue_switch ?n t _ = _ |- _ =>
               rewrite ?H; clear H
           | H : allBrancheshaveReturnValues_switch ?n _ = _ |- _ =>
               rewrite ?H; clear H
           end;
    rewrite ?Hreturn;
    try reflexivity.
  - (* BlockStatement, existence *)
    apply some_ext. intros bodyNode Hin.
    destruct (list_all_In _ _ H bodyNode Hin) as [-> _]. reflexivity.
  - (* BlockStatement, exhaustiveness *)
    apply with_last_ext; [reflexivity|]. intros nde Hin.
    destruct (list_all_In _ _ H nde Hin) as [_ ->]. reflexivity.
  - (* SwitchStatement *)
    apply some_ext. intros [test consequent] Hin.
    apply some_ext. intros nde Hnde.
    apply (list_all_In _ _ H (SwitchCase test consequent) Hin). exact Hnde.
  - (* SwitchCase *)
    intros nde throwOnNullReturn Hin.
    match goal with
    | H : list_all _ _ _ |- _ => apply (list_all_In _ _ H nde Hin)
    end.
  - intros nde throwOnNullReturn Hin.
    match goal with
    | H : list_all _ _ _ |- _ => apply (list_all_In _ _ H nde Hin)
    end.
Qed.

(** X3. With [anyPromiseAsReturn] the decision does not depend on what is
    inside a returned promise: it is the decision that the traversals
    reach without any filter. *)
Theorem any_promise_decision_without_filter (node : option Node) :
  hasValueOrExecutorHasNonEmptyResolveValue node true false
  = hasReturnValue node false None
  /\ hasValueOrExecutorHasNonEmptyResolveValue node true true
     = existenceEscalated node None &&& allBrancheshaveReturnValues node None.
Proof.
  assert (Hsame : forall prom, isNewPromiseExpression (Some prom) = true ->
             answer (Some (promiseFilter true)) prom = answer None prom)
    by reflexivity.
  unfold hasValueOrExecutorHasNonEmptyResolveValue, existenceEscalated.
  destruct node as [node|]; [|split; reflexivity].
  destruct (traversals_by_filter_answers _ _ Hsame node) as [Hexists Hall].
  cbn [hasReturnValue allBrancheshaveReturnValues].
  rewrite !Hexists, Hall. split; [reflexivity|].
  destruct (hasReturnValue_switch node true None) as [v|[|]]; reflexivity.
Qed.

(** X4. Both traversals ask the filter about returned [new Promise(...)]
    expressions and about nothing else: two filters that agree on those
    expressions give the same existence and the same exhaustiveness, on
    every node and for either escalation flag. *)
Theorem filter_asked_about_promises_only (f g : PromiseFilter)
    (node : option Node) (throwOnNullReturn : bool) :
  (forall prom, isNewPromiseExpression (Some prom) = true -> f prom = g prom) ->
  hasReturnValue node throwOnNullReturn (Some f)
  = hasReturnValue node throwOnNullReturn (Some g)
  /\ allBrancheshaveReturnValues node (Some f)
     = allBrancheshaveReturnValues node (Some g).
Proof.
  intros Hagree. destruct node as [node|]; [|split; reflexivity].
  destruct (traversals_by_filter_answers (Some f) (Some g) Hagree node)
    as [Hexists Hall].
  cbn [hasReturnValue allBrancheshaveReturnValues].
  rewrite Hexists, Hall. split; reflexivity.
Qed.

(** Witness of [filter_asked_about_promises_only]: the filter of the
    decision and the one that answers [true] on everything but promises
    with a [void] type argument, on [{ return 1; }]. *)
Lemma filter_asked_about_promises_only_witness :
  let f : PromiseFilter := fun prom => negb (isVoidPromise (Some prom)) in
  let g : PromiseFilter :=
    fun prom =>
      isNewPromiseExpression (Some prom) && negb (isVoidPromise (Some prom)) in
  hasReturnValue (Some (BlockStatement [returns one])) true (Some f)
  = hasReturnValue (Some (BlockStatement [returns one])) true (Some g)
  /\ allBrancheshaveReturnValues (Some (BlockStatement [returns one])) (Some f)
     = allBrancheshaveReturnValues (Some (BlockStatement [returns one])) (Some g).
Proof.
  intros f g.
  apply (filter_asked_about_promises_only f g
           (Some (BlockStatement [returns one])) true).
  intros prom Hprom. unfold f, g. rewrite Hprom. reflexivity.
Defined.

(** ** Resolver usage, conversely *)

(** X5. The resolver-usage traversal answers [true] only for a reason:
    somewhere it arrives at, there is a call of the bare resolver
    identifier with an argument slot, or a call that has the bare resolver
    identifier among its arguments. *)
Theorem resolver_usage_has_a_reason (resolver : string) (root : Node) :
  hasNonEmptyResolverCall (Some root) (Some resolver) = true ->
  exists node,
    reachable (Some resolver) root node
    /\ (callsResolver resolver node \/ passesResolver resolver node).
Proof.
  intros Htrue. cbn [hasNonEmptyResolverCall] in Htrue.
  destruct (resolver_usage_only_at_calls _ _ Htrue) as [node [Hreach Hcall]].
  exists node. split; [exact Hreach|].
  apply resolverCall_iff. exact Hcall.
Qed.

(** Witness of [resolver_usage_has_a_reason] on [{ resolve(5); }]. *)
Lemma resolver_usage_has_a_reason_witness :
  exists node,
    reachable (Some "resolve")
      (BlockStatement
         [ExpressionStatement
            (CallExpression (Identifier "resolve") [Literal (LNumber 5)])])
      node
    /\ (callsResolver "resolve" node \/ passesResolver "resolve" node).
Proof.
  apply (resolver_usage_has_a_reason "resolve"
           (BlockStatement
              [ExpressionStatement
                 (CallExpression (Identifier "resolve") [Literal (LNumber 5)])])).
  reflexivity.
Defined.

(** ** The decision on parsed trees, and on blocks and conditionals *)

(** X6. On a tree as a parser hands it over (a statement or a function in
    which every function standing as a statement has a block for body, or
    an arrow function with an expression body) the decision throws
    nothing: it returns [true] or a falsy value, in both modes. *)
Theorem decision_on_parsed_tree (node : Node)
    (anyPromiseAsReturn allBranches : bool) :
  blockBodiedFunctions node = true
  \/ (exists params body, node = ArrowFunctionExpression true params body) ->
  exists v,
    hasValueOrExecutorHasNonEmptyResolveValue (Some node)
      anyPromiseAsReturn allBranches = Return v
    /\ (v = VBoolean true \/ truthy v = false).
Proof.
  intros Hnode.
  destruct (decision_returns node anyPromiseAsReturn allBranches Hnode)
    as [v Hv].
  exists v. split; [exact Hv|].
  pose proof (decision_completes (Some node) anyPromiseAsReturn allBranches)
    as Hshape.
  rewrite Hv in Hshape. cbn [completes] in Hshape.
  destruct (truthy v); [left; apply Hshape; reflexivity | right; reflexivity].
Qed.

(** Witness of [decision_on_parsed_tree] on
    [function () { while (true) { return 1; } }]. *)
Lemma decision_on_parsed_tree_witness :
  exists v,
    hasValueOrExecutorHasNonEmptyResolveValue
      (Some (FunctionExpression false []
               (BlockStatement
                  [WhileStatement (Literal (LBoolean true))
                     (BlockStatement [returns one])])))
      false true
    = Return v
    /\ (v = VBoolean true \/ truthy v = false).
Proof.
  apply (decision_on_parsed_tree
           (FunctionExpression false []
              (BlockStatement
                 [WhileStatement (Literal (LBoolean true))
                    (BlockStatement [returns one])]))
           false true).
  left. reflexivity.
Defined.

Lemma with_last_app {A B : Type} (continuation : option A -> B)
    (prefix : list A) (x : A) :
  with_last continuation (prefix ++ [x]) = continuation (Some x).
Proof.
  induction prefix as [|y prefix IH]; [reflexivity|].
  cbn [app with_last]. rewrite <- IH.
  destruct prefix; reflexivity.
Qed.

(** X7. Exhaustiveness of a block is exhaustiveness of its last statement,
    whatever stands before it; an empty block is not exhaustive. *)
Theorem block_exhaustiveness_is_last_statement (promFilter : option PromiseFilter) :
  (forall statements lastStatement,
      allBrancheshaveReturnValues
        (Some (BlockStatement (statements ++ [lastStatement]))) promFilter
      = allBrancheshaveReturnValues (Some lastStatement) promFilter)
  /\ allBrancheshaveReturnValues (Some (BlockStatement [])) promFilter
     = Return (VBoolean false).
Proof.
  split; [|reflexivity].
  intros statements lastStatement.
  cbn [allBrancheshaveReturnValues allBrancheshaveReturnValues_switch].
  apply with_last_app.
Qed.

(** X8. Existence in a block passes over the function declarations that
    stand directly in it, also under escalation: the block answers as it
    does with those declarations taken out. *)
Theorem block_existence_skips_function_declarations (body : list Node)
    (throwOnNullReturn : bool) (promFilter : option PromiseFilter) :
  hasReturnValue (Some (BlockStatement body)) throwOnNullReturn promFilter
  = hasReturnValue
      (Some (BlockStatement
               (filter (fun bodyNode =>
                          negb (node_type bodyNode =? "FunctionDeclaration"))
                  body)))
      throwOnNullReturn promFilter.
Proof.
  cbn [hasReturnValue hasReturnValue_switch].
  induction body as [|bodyNode body IH]; [reflexivity|].
  cbn [filter some].
  destruct (negb (node_type bodyNode =? "FunctionDeclaration")) eqn:Hkind.
  - cbn [some]. rewrite Hkind. rewrite IH. reflexivity.
  - cbn [ret js_and truthy]. exact IH.
Qed.

(** X9. An [if] without [else] is never exhaustive: exhaustiveness returns
    a falsy value on it (or throws the [TypeError] that exhaustiveness of
    its consequent throws). *)
Theorem if_without_else_not_exhaustive (test consequent : Node)
    (promFilter : option PromiseFilter) :
  let answer :=
    allBrancheshaveReturnValues (Some (IfStatement test consequent None))
      promFilter in
  (exists v, answer = Return v /\ truthy v = false)
  \/ (answer = Throw TypeError
      /\ allBrancheshaveReturnValues (Some consequent) promFilter
         = Throw TypeError).
Proof.
  intros answer. subst answer.
  cbn [allBrancheshaveReturnValues allBrancheshaveReturnValues_switch].
  pose proof (allBrancheshaveReturnValues_switch_completes promFilter consequent)
    as Hshape.
  destruct (allBrancheshaveReturnValues_switch consequent promFilter) as [v|e];
    cbn [js_and].
  - left. destruct (truthy v) eqn:Hv; eexists; split; try reflexivity.
    exact Hv.
  - right. cbn [completes] in Hshape. subst e. split; reflexivity.
Qed.

(** ** Functions, methods and signatures *)

(** X10. An arrow function with an expression body is decided [true] in
    both modes and under both settings of [anyPromiseAsReturn], unless
    the body is a [new Promise] with a [void] type argument: the filter is
    not consulted, so the executor of a promise that is the body is not
    looked at. *)
Theorem expression_arrow_decided_true (params : list Node) (body : Node)
    (anyPromiseAsReturn allBranches : bool) :
  isNewPromiseExpression (Some body) && isVoidPromise (Some body) = false ->
  hasValueOrExecutorHasNonEmptyResolveValue
    (Some (ArrowFunctionExpression true params body))
    anyPromiseAsReturn allBranches
  = Return (VBoolean true).
Proof.
  intros Hbody.
  assert (Hvalued : negb (isNewPromiseExpression (Some body))
                    || negb (isVoidPromise (Some body)) = true).
  { rewrite <- negb_andb, Hbody. reflexivity. }
  unfold hasValueOrExecutorHasNonEmptyResolveValue.
  destruct allBranches;
    cbn [hasReturnValue hasReturnValue_switch allBrancheshaveReturnValues
         allBrancheshaveReturnValues_switch andb];
    rewrite Hvalued; reflexivity.
Qed.

(** Witness of [expression_arrow_decided_true] on
    [() => new Promise((resolve) => { resolve(); })], whose resolver is
    called without argument. *)
Lemma expression_arrow_decided_true_witness :
  hasValueOrExecutorHasNonEmptyResolveValue
    (Some (ArrowFunctionExpression true []
             (newPromise None
                [ArrowFunctionExpression false [Identifier "resolve"]
                   (BlockStatement
                      [ExpressionStatement
                         (CallExpression (Identifier "resolve") [])])])))
    false true
  = Return (VBoolean true).
Proof.
  apply (expression_arrow_decided_true []
           (newPromise None
              [ArrowFunctionExpression false [Identifier "resolve"]
                 (BlockStatement
                    [ExpressionStatement
                       (CallExpression (Identifier "resolve") [])])])
           false true).
  reflexivity.
Defined.

(** X11. A [MethodDefinition] is decided, without [allBranches], as the
    function that is its [value]; with [allBranches] it is never decided
    [true], the exhaustiveness traversal having no case for it. *)
Theorem method_definition_decision (decorators : option (list Node))
    (computed : bool) (key value : Node) (anyPromiseAsReturn : bool) :
  let method := MethodDefinition decorators computed key value in
  hasValueOrExecutorHasNonEmptyResolveValue (Some method) anyPromiseAsReturn false
  = hasValueOrExecutorHasNonEmptyResolveValue (Some value) anyPromiseAsReturn false
  /\ exists v,
       hasValueOrExecutorHasNonEmptyResolveValue (Some method)
         anyPromiseAsReturn true = Return v
       /\ truthy v = false.
Proof.
  intros method. subst method. split; [reflexivity|].
  unfold hasValueOrExecutorHasNonEmptyResolveValue.
  cbn [hasReturnValue hasReturnValue_switch allBrancheshaveReturnValues
       allBrancheshaveReturnValues_switch].
  pose proof (hasReturnValue_switch_completes true
                (Some (promiseFilter anyPromiseAsReturn)) value) as Hshape.
  destruct (hasReturnValue_switch value true _) as [v|e].
  - cbn [js_and]. destruct (truthy v) eqn:Hv.
    + exists (VBoolean false). split; reflexivity.
    + exists v. split; [reflexivity | exact Hv].
  - destruct Hshape as [-> _]. exists (VBoolean false). split; reflexivity.
Qed.

(** X12. [isNewPromiseExpression] recognises a [new] expression whose
    callee is the bare identifier [Promise], and nothing else: not a
    member expression such as [window.Promise], not another name. *)
Theorem isNewPromiseExpression_iff (node : Node) :
  isNewPromiseExpression (Some node) = true
  <-> exists typeParameters arguments,
        node = NewExpression (Identifier "Promise") typeParameters arguments.
Proof.
  split.
  - destruct node; try discriminate. cbn [isNewPromiseExpression].
    intros H. apply andb_true_iff in H. destruct H as [_ Hname].
    destruct (node_name node) as [name|] eqn:Hcallee; [|discriminate Hname].
    cbn [strict_eq] in Hname. apply String.eqb_eq in Hname. subst name.
    apply node_name_Some in Hcallee. subst node. eauto.
  - intros [typeParameters [arguments ->]]. reflexivity.
Qed.

(** X13. A returned [new Promise] without a resolver is decided [false]
    when [anyPromiseAsReturn] is [false], in both modes: a construction
    without arguments, or one whose first argument has no parameters (a
    function without parameters, or something that is no function, such as
    an identifier). *)
Theorem promise_without_resolver_decided_false
    (typeParameters : option TSTypeParameterInstantiation)
    (arguments : list Node) (allBranches : bool) :
  arguments = []
  \/ (exists executor rest,
         arguments = executor :: rest
         /\ (node_params executor = None \/ node_params executor = Some [])) ->
  hasValueOrExecutorHasNonEmptyResolveValue
    (Some (returns (NewExpression (Identifier "Promise") typeParameters arguments)))
    false allBranches
  = Return (VBoolean false).
Proof.
  intros Harguments.
  assert (Hfilter : promiseFilter false
                      (NewExpression (Identifier "Promise") typeParameters arguments)
                    = false).
  { unfold promiseFilter.
    destruct (isVoidPromise _); [reflexivity|].
    destruct Harguments as [->|[executor [rest [-> [Hparams|Hparams]]]]];
      [reflexivity| |]; rewrite Hparams; reflexivity. }
  unfold hasValueOrExecutorHasNonEmptyResolveValue, returns.
  destruct allBranches;
    cbn [hasReturnValue hasReturnValue_switch allBrancheshaveReturnValues
         allBrancheshaveReturnValues_switch];
    change (isNewPromiseExpression
              (Some (NewExpression (Identifier "Promise") typeParameters arguments)))
      with true;
    cbv iota; rewrite Hfilter; reflexivity.
Qed.

(** Witness of [promise_without_resolver_decided_false] on
    [return new Promise(() => { done(1); })] and on
    [return new Promise(executor)]. *)
Lemma promise_without_resolver_decided_false_witness :
  hasValueOrExecutorHasNonEmptyResolveValue
    (Some (returns
             (NewExpression (Identifier "Promise") None
                [ArrowFunctionExpression false []
                   (BlockStatement
                      [ExpressionStatement
                         (CallExpression (Identifier "done") [one])])])))
    false false
  = Return (VBoolean false)
  /\ hasValueOrExecutorHasNonEmptyResolveValue
       (Some (returns
                (NewExpression (Identifier "Promise") None
                   [Identifier "executor"])))
       false true
     = Return (VBoolean false).
Proof.
  split.
  - apply (promise_without_resolver_decided_false None
             [ArrowFunctionExpression false []
                (BlockStatement
                   [ExpressionStatement
                      (CallExpression (Identifier "done") [one])])]
             false).
    right. eexists. eexists. split; [reflexivity|]. right. reflexivity.
  - apply (promise_without_resolver_decided_false None
             [Identifier "executor"] true).
    right. eexists. eexists. split; [reflexivity|]. left. reflexivity.
Defined.

(** X14. When the resolver has no name (the first parameter of the
    executor is a pattern, whose [name] is [undefined]), the traversal
    answers [true] as soon as it arrives at a call with an argument whose
    callee has no name either, a member expression for one:
    [undefined === undefined]. *)
Theorem unnamed_resolver_matches_unnamed_callee (root callee argument0 : Node)
    (arguments : list Node) :
  node_name callee = None ->
  reachable None root (CallExpression callee (argument0 :: arguments)) ->
  hasNonEmptyResolverCall (Some root) None = true.
Proof.
  intros Hcallee Hreach. cbn [hasNonEmptyResolverCall].
  apply (hasNonEmptyResolverCall_switch_reachable _ _ _ Hreach).
  cbn [hasNonEmptyResolverCall_switch nth_error]. rewrite Hcallee.
  cbn [strict_eq]. rewrite orb_true_r. reflexivity.
Qed.

(** Witness of [unnamed_resolver_matches_unnamed_callee] on the body of
    [({a}) => { foo.bar(1); }]. *)
Lemma unnamed_resolver_matches_unnamed_callee_witness :
  hasNonEmptyResolverCall
    (Some (BlockStatement
             [ExpressionStatement
                (CallExpression
                   (MemberExpression (Identifier "foo") (Identifier "bar"))
                   [one])]))
    None
  = true.
Proof.
  apply (unnamed_resolver_matches_unnamed_callee _
           (MemberExpression (Identifier "foo") (Identifier "bar")) one []).
  - reflexivity.
  - eapply reachable_below; [left; reflexivity|].
    eapply reachable_below; [left; reflexivity|].
    apply reachable_here.
Defined.

Lemma has_In (set : list string) (key : string) :
  has set key = true <-> In key set.
Proof.
  unfold has. rewrite existsb_exists. split.
  - intros [x [Hin Heq]]. apply String.eqb_eq in Heq. subst x. exact Hin.
  - intros Hin. exists key. split; [exact Hin | apply String.eqb_refl].
Qed.

Lemma returnTypeHasValue_true_iff (returnType : option TSTypeAnnotation) :
  returnTypeHasValue returnType = Return (VBoolean true)
  <-> exists annotation,
        returnType = Some annotation
        /\ ~ In (type (typeAnnotation annotation))
               [""; "TSVoidKeyword"; "TSUndefinedKeyword"; "TSNeverKeyword"].
Proof.
  unfold returnTypeHasValue.
  destruct returnType as [annotation|].
  2:{ split; [discriminate | intros [annotation [H _]]; discriminate H]. }
  cbn [js_and truthy].
  destruct (type (typeAnnotation annotation) =? "") eqn:Hempty; cbn [negb].
  - apply String.eqb_eq in Hempty. split; [discriminate|].
    intros [annotation' [[= <-] Hnot]]. exfalso. apply Hnot.
    left. symmetry. exact Hempty.
  - apply String.eqb_neq in Hempty.
    destruct (has undefinedKeywords (type (typeAnnotation annotation))) eqn:Hset;
      cbn [negb].
    + apply (has_In undefinedKeywords) in Hset. split; [discriminate|].
      intros [annotation' [[= <-] Hnot]]. exfalso. apply Hnot.
      right. exact Hset.
    + split; [|reflexivity]. intros _. exists annotation.
      split; [reflexivity|]. intros [Hin|Hin].
      * apply Hempty. symmetry. exact Hin.
      * apply (has_In undefinedKeywords) in Hin.
        rewrite Hin in Hset. discriminate Hset.
Qed.

(** X15. On a signature-only function ([TSDeclareFunction],
    [TSFunctionType], [TSMethodSignature]) existence, under either
    escalation flag, and exhaustiveness give one and the same answer,
    whatever the filter; it is [true] exactly when a return type is
    declared whose kind is not [TSVoidKeyword], [TSUndefinedKeyword] or
    [TSNeverKeyword] (nor the empty string). *)
Theorem signature_has_value_iff (key : Node) (params : list Node)
    (returnType : option TSTypeAnnotation) (throwOnNullReturn : bool)
    (promFilter : option PromiseFilter) :
  let valued :=
    exists annotation,
      returnType = Some annotation
      /\ ~ In (type (typeAnnotation annotation))
             [""; "TSVoidKeyword"; "TSUndefinedKeyword"; "TSNeverKeyword"] in
  let agrees (node : Node) :=
    (hasReturnValue (Some node) throwOnNullReturn promFilter
     = Return (VBoolean true) <-> valued)
    /\ allBrancheshaveReturnValues (Some node) promFilter
       = hasReturnValue (Some node) throwOnNullReturn promFilter in
  agrees (TSDeclareFunction params returnType)
  /\ agrees (TSFunctionType params returnType)
  /\ agrees (TSMethodSignature key params returnType).
Proof.
  intros valued agrees. subst valued agrees.
  cbn [hasReturnValue hasReturnValue_switch allBrancheshaveReturnValues
       allBrancheshaveReturnValues_switch].
  repeat split; try apply returnTypeHasValue_true_iff.
Qed.

(** ** A filter can only veto *)

Lemma permits_same (c : completion) :
  completes (fun _ => True) c -> permits c c.
Proof. intros H. repeat split; eauto. Qed.

Lemma permits_true (c : completion) :
  completes (fun _ => True) c -> permits c (ret true).
Proof.
  intros H. repeat split; eauto; try apply completes_ret.
  intros v _. eexists. reflexivity.
Qed.

Lemma permits_js_or (a a' b b' : completion) :
  permits a a' -> permits b b' -> permits (a ||| b) (a' ||| b').
Proof.
  intros (Ha & Ha' & Hreturns & Htrue) Hb.
  destruct a as [v|e].
  2:{ split; [exact Ha|]. split; [|split; discriminate].
      apply completes_js_or; [exact Ha' | apply Hb]. }
  destruct (Hreturns v eq_refl) as [v' ->]. cbn [js_or completes] in *.
  destruct (truthy v) eqn:Hv.
  - rewrite (Ha eq_refl) in *. injection (Htrue eq_refl) as ->.
    apply permits_same. apply completes_ret.
  - destruct (truthy v') eqn:Hv'; [|exact Hb].
    rewrite (Ha' eq_refl). apply permits_true. apply Hb.
Qed.

Lemma permits_js_and (a b b' : completion) :
  completes (fun _ => True) a -> permits b b' -> permits (a &&& b) (a &&& b').
Proof.
  intros Ha Hb. destruct a as [v|e]; cbn [js_and].
  - destruct (truthy v); [exact Hb | apply permits_same; exact Ha].
  - apply permits_same. exact Ha.
Qed.

Lemma permits_some {A : Type} (callback callback' : A -> completion)
    (array : list A) :
  (forall x, In x array -> permits (callback x) (callback' x)) ->
  permits (some callback array) (some callback' array).
Proof.
  induction array as [|x rest IH]; intros H; cbn [some].
  - apply permits_same. apply completes_ret.
  - assert (Hrest : permits (some callback rest) (some callback' rest))
      by (apply IH; intros y Hy; apply H; right; exact Hy).
    destruct (H x (or_introl eq_refl)) as (Ha & Ha' & Hreturns & Htrue).
    destruct (callback x) as [v|e].
    2:{ split; [exact Ha|]. split; [|split; discriminate].
        destruct (callback' x) as [v'|e']; [|exact Ha'].
        destruct (truthy v'); [apply completes_ret | apply Hrest]. }
    destruct (callback' x) as [v'|e'];
      [|destruct (Hreturns v eq_refl) as [v' Hv']; discriminate Hv'].
    cbn [completes] in *.
    destruct (truthy v) eqn:Hv.
    + rewrite (Ha eq_refl) in *. injection (Htrue eq_refl) as ->.
      apply permits_same. apply completes_ret.
    + destruct (truthy v') eqn:Hv'; [|exact Hrest].
      apply permits_true. apply Hrest.
Qed.

Lemma hasReturnValue_switch_permits (f : PromiseFilter)
    (throwOnNullReturn : bool) (node : Node) :
  permits (hasReturnValue_switch node throwOnNullReturn (Some f))
    (hasReturnValue_switch node throwOnNullReturn None).
Proof.
  induction node using Node_mutind with
    (P0 := fun clause =>
             match clause with
             | CatchClause _ body =>
                 permits (hasReturnValue_switch body throwOnNullReturn (Some f))
                   (hasReturnValue_switch body throwOnNullReturn None)
             end)
    (P1 := fun someCase =>
             match someCase with
             | SwitchCase _ consequent =>
                 forall nde, In nde consequent ->
                   permits (hasReturnValue_switch nde throwOnNullReturn (Some f))
                     (hasReturnValue_switch nde throwOnNullReturn None)
             end);
    cbn [hasReturnValue_switch];
    repeat match goal with
           | |- permits (ret ?b) (ret ?b) => apply permits_same, completes_ret
           | |- permits (returnTypeHasValue _) _ =>
               apply permits_same, completes_returnTypeHasValue
           | |- permits (_ ||| _) (_ ||| _) => apply permits_js_or
           | |- permits (_ &&& _) (_ &&& _) =>
               apply permits_js_and; [apply completes_ret|]
           | |- permits (some _ _) (some _ _) =>
               apply permits_some; intros ? ?
           | H : list_all _ _ ?l, Hin : In ?x ?l |- _ =>
               generalize (list_all_In _ _ H x Hin); clear H; intro H
           | H : forall x, In x ?l -> _, Hin : In ?x ?l |- _ =>
               generalize (H x Hin); clear H; intro H
           | H : option_all _ _ ?o |- context [match ?o with _ => _ end] =>
               destruct H
           | |- context [match ?c with CatchClause _ _ => _ end] => destruct c
           | |- context [match ?c with SwitchCase _ _ => _ end] => destruct c
           | _ => assumption
           end.
  - (* ReturnStatement with argument *)
    apply permits_true.
    destruct (isNewPromiseExpression (Some a)); apply completes_ret.
  - (* ReturnStatement without argument *)
    apply permits_same. destruct throwOnNullReturn; [exact I | apply completes_ret].
  - (* SwitchCase *)
    apply list_all_In. assumption.
Qed.

(** X16. A filter can only veto. Whenever existence is [true] with a
    filter it is [true] without one, under either escalation flag; so a
    node that is decided [true] without [allBranches] is also decided
    [true] when [anyPromiseAsReturn] is set. *)
Theorem filter_can_only_veto (node : option Node) :
  (forall f throwOnNullReturn,
      hasReturnValue node throwOnNullReturn (Some f) = Return (VBoolean true) ->
      hasReturnValue node throwOnNullReturn None = Return (VBoolean true))
  /\ (hasValueOrExecutorHasNonEmptyResolveValue node false false
       = Return (VBoolean true) ->
      hasValueOrExecutorHasNonEmptyResolveValue node true false
      = Return (VBoolean true)).
Proof.
  assert (Hveto : forall f throwOnNullReturn,
             hasReturnValue node throwOnNullReturn (Some f)
             = Return (VBoolean true) ->
             hasReturnValue node throwOnNullReturn None
             = Return (VBoolean true)).
  { intros f throwOnNullReturn. destruct node as [node|]; [|discriminate].
    apply (hasReturnValue_switch_permits f throwOnNullReturn node). }
  split; [exact Hveto|].
  unfold hasValueOrExecutorHasNonEmptyResolveValue. intros Htrue.
  apply Hveto in Htrue.
  assert (Hsame : forall prom, isNewPromiseExpression (Some prom) = true ->
             answer (Some (promiseFilter true)) prom = answer None prom)
    by reflexivity.
  destruct node as [node|]; [|discriminate Htrue].
  cbn [hasReturnValue] in *.
  rewrite (proj1 (traversals_by_filter_answers _ _ Hsame node) false).
  exact Htrue.
Qed.

(** Witness of [filter_can_only_veto] on
    [{ return new Promise((resolve) => { resolve(5); }); }]. *)
Lemma filter_can_only_veto_witness :
  hasValueOrExecutorHasNonEmptyResolveValue
    (Some (BlockStatement [returns (newPromise None [resolvingExecutor])]))
    true false
  = Return (VBoolean true).
Proof.
  apply (proj2 (filter_can_only_veto
                  (Some (BlockStatement
                           [returns (newPromise None [resolvingExecutor])])))).
  reflexivity.
Defined.
